(** * EventCard: the countdown to an event and the image carousel

    A shallow embedding of the logic of the [EventCard] React component:
    the [calculateTimeLeft] effect, which turns the [eventDate] and
    [eventTime] props and the wall clock into the countdown shown on the
    card, and the three image handlers [nextImage], [previousImage] and
    [toggleImageFullscreen]; then what the card renders from its state,
    the life of its timer, and the query of the news page.

    The component runs on a JavaScript host.  What ECMAScript fixes
    ([String.prototype.split], [Date.prototype.setHours], [isNaN], [%],
    [try]/[catch]) is written out below; what it leaves to the host
    (how a date string is read, the local time zone, the numeric value of a
    string) is a field of [Host], and the theorems hold for every host.

    Numbers.  A time value and an array index are integral Numbers or NaN
    ([num]); they are carried as [Z] and their arithmetic is exact, as the
    arithmetic of doubles is on integers below 2^53: a time value is at
    most 8.64e15 < 2^53 in magnitude, and so is its distance to any clock
    of the common era.  The result of [Number(s)] can be any Number
    ([double]): NaN, an infinity, or a finite value, carried as a
    rational. *)

From Stdlib Require Import ZArith QArith String Ascii List Bool Lia Sorted.
From Stdlib Require Import DecimalString DecimalZ DecimalPos.
Import ListNotations.
Local Open Scope string_scope.
Local Open Scope Z_scope.

(** ** The JavaScript values the component handles *)

Module JS.

(** A Number that is integral or NaN: time values, indices, lengths. *)
Inductive num : Type :=
| NaN
| Int (z : Z).

(** An arbitrary Number. *)
Inductive double : Type :=
| DNaN
| DInf (negative : bool)
| DFin (q : Q).

(** The values a prop fetched from a table row can hold. *)
Inductive value : Type :=
| Undefined
| Null
| Bool (b : bool)
| Num (n : double)
| Str (s : string).

(** The one exception this code can raise: a call of a method the
    receiver does not have. *)
Inductive exn : Type :=
| TypeError (msg : string).

(** [ToBoolean]: the falsy values are [undefined], [null], [false], [0],
    [NaN] and the empty string. *)
Definition ToBoolean (v : value) : bool :=
  match v with
  | Undefined | Null => false
  | Bool b => b
  | Num DNaN => false
  | Num (DInf _) => true
  | Num (DFin q) => negb (Qnum q =? 0)
  | Str s => negb (s =? "")%string
  end.

(** [ToIntegerOrInfinity] on a finite Number: truncation towards zero. *)
Definition truncate (q : Q) : Z := Z.quot (Qnum q) (Z.pos (Qden q)).

(** *** Number arithmetic on [num] *)

Definition add (a b : num) : num :=
  match a, b with
  | Int x, Int y => Int (x + y)
  | _, _ => NaN
  end.

Definition sub (a b : num) : num :=
  match a, b with
  | Int x, Int y => Int (x - y)
  | _, _ => NaN
  end.

(** [a % b]: the remainder has the sign of the dividend, and a zero divisor
    gives NaN.  No operand raises. *)
Definition rem (a b : num) : num :=
  match a, b with
  | Int x, Int y => if y =? 0 then NaN else Int (Z.rem x y)
  | _, _ => NaN
  end.

(** [a === b] on Numbers: NaN equals nothing. *)
Definition strict_eq (a b : num) : bool :=
  match a, b with
  | Int x, Int y => x =? y
  | _, _ => false
  end.

Definition isNaN (a : num) : bool :=
  match a with
  | NaN => true
  | Int _ => false
  end.

(** *** [String.prototype.split] with a one-character separator *)

Fixpoint split_from (sep : ascii) (s : string) (field : string) : list string :=
  match s with
  | EmptyString => [field]
  | String c rest =>
      if Ascii.eqb c sep then field :: split_from sep rest ""
      else split_from sep rest (field ++ String c "")%string
  end.

Definition split (sep : ascii) (s : string) : list string :=
  split_from sep s "".

(** *** Dates: the time computations of ECMAScript *)

Definition msPerDay : Z := 86400000.
Definition msPerHour : Z := 3600000.
Definition msPerMinute : Z := 60000.
Definition msPerSecond : Z := 1000.

(** The largest magnitude of a time value: 8.64e15 ms. *)
Definition maxTime : Z := 8640000000000000.

Definition Day (t : Z) : Z := t / msPerDay.

Definition TimeClip (t : num) : num :=
  match t with
  | NaN => NaN
  | Int z => if maxTime <? Z.abs z then NaN else Int z
  end.

(** [MakeTime (hour, min, sec, ms)]: NaN unless all four are finite. *)
Definition MakeTime (hour min sec ms : double) : num :=
  match hour, min, sec, ms with
  | DFin h, DFin m, DFin s, DFin milli =>
      Int (truncate h * msPerHour + truncate m * msPerMinute
           + truncate s * msPerSecond + truncate milli)
  | _, _, _, _ => NaN
  end.

Definition MakeDate (day : Z) (time : num) : num :=
  match time with
  | NaN => NaN
  | Int tm => Int (day * msPerDay + tm)
  end.

(** [ToNumber] of an argument: a missing element of a destructured array
    is [undefined], whose Number is NaN. *)
Definition ToNumber_arg (a : option double) : double :=
  match a with
  | Some n => n
  | None => DNaN
  end.

Definition ToNumber (v : value) : double :=
  match v with
  | Undefined => DNaN
  | Null => DFin 0%Q
  | Bool b => if b then DFin 1%Q else DFin 0%Q
  | Num n => n
  | Str _ => DNaN
  end.

Definition clip_double (n : double) : num :=
  match n with
  | DFin q => TimeClip (Int (truncate q))
  | _ => NaN
  end.

(** What the surrounding engine decides. *)
Record Host : Type := {
  (** [Date.parse]: the time value of a date string, NaN when it is not
      recognised. *)
  Date_parse : string -> num;
  (** [Number(s)] on a string. *)
  Number : string -> double;
  (** The offset of local time from UTC in ms, at a UTC time value
      ([true]) or at a local one ([false]). *)
  LocalTZA : Z -> bool -> Z
}.

Section Dates.
Variable H : Host.

Definition LocalTime (t : Z) : Z := t + LocalTZA H t true.
Definition UTC (t : num) : num :=
  match t with
  | NaN => NaN
  | Int z => Int (z - LocalTZA H z false)
  end.

(** [new Date(v)]: a string is parsed, any other value is converted to a
    Number; the time value is clipped. *)
Definition new_Date (v : value) : num :=
  match v with
  | Str s => TimeClip (Date_parse H s)
  | _ => clip_double (ToNumber v)
  end.

(** [d.setHours(hour, min, sec, ms)] with all four arguments passed: the
    new time value of [d], whose old one is [t].  The calendar day is the
    local day of [t]. *)
Definition setHours (t : num) (hour min sec ms : double) : num :=
  match t with
  | NaN => NaN
  | Int z =>
      TimeClip (UTC (MakeDate (Day (LocalTime z)) (MakeTime hour min sec ms)))
  end.

End Dates.

End JS.

(** ** The component *)

Module EventCard.
Import JS.

(** The props the logic reads.  [eventDate] and [eventTime] are declared as
    strings; at run time they hold whatever the fetched row holds. *)
Record Props : Type := {
  eventDate : value;
  eventTime : value;
  image : option string;
  images : list string
}.

Record CountdownState : Type := {
  days : Z;
  hrs : Z;
  mins : Z;
  secs : Z;
  isExpired : bool
}.

Record SiteConfig : Type := {
  primary_color : string
}.

(** The [useState] cells of one card. *)
Record State : Type := {
  isExpanded : bool;
  currentImageIndex : num;
  isImageFullscreen : bool;
  countdown : CountdownState;
  config : option SiteConfig
}.

Inductive LogEntry : Type :=
| InvalidDate (eventDate eventTime : value)
| ErrorCalculatingCountdown (error : exn).

(** A card and the console it writes to. *)
Record World : Type := {
  card : State;
  console : list LogEntry
}.

(** The state every card starts from. *)
Definition initialState : State :=
  {| isExpanded := false;
     currentImageIndex := Int 0;
     isImageFullscreen := false;
     countdown := {| days := 0; hrs := 0; mins := 0; secs := 0; isExpired := false |};
     config := None |}.

(** *** State setters *)

Definition setIsExpanded (b : bool) (st : State) : State :=
  {| isExpanded := b;
     currentImageIndex := currentImageIndex st;
     isImageFullscreen := isImageFullscreen st;
     countdown := countdown st;
     config := config st |}.

(** The setter is called with an updater, which receives the latest index. *)
Definition setCurrentImageIndex (f : num -> num) (st : State) : State :=
  {| isExpanded := isExpanded st;
     currentImageIndex := f (currentImageIndex st);
     isImageFullscreen := isImageFullscreen st;
     countdown := countdown st;
     config := config st |}.

Definition setIsImageFullscreen (b : bool) (st : State) : State :=
  {| isExpanded := isExpanded st;
     currentImageIndex := currentImageIndex st;
     isImageFullscreen := b;
     countdown := countdown st;
     config := config st |}.

Definition setCountdownState (c : CountdownState) (st : State) : State :=
  {| isExpanded := isExpanded st;
     currentImageIndex := currentImageIndex st;
     isImageFullscreen := isImageFullscreen st;
     countdown := c;
     config := config st |}.

Definition setConfig (c : SiteConfig) (st : State) : State :=
  {| isExpanded := isExpanded st;
     currentImageIndex := currentImageIndex st;
     isImageFullscreen := isImageFullscreen st;
     countdown := countdown st;
     config := Some c |}.

(** *** Statements that may raise *)

Inductive outcome (A : Type) : Type :=
| Return (a : A)
| Throw (e : exn).
Arguments Return {A} a.
Arguments Throw {A} e.

Definition M (A : Type) : Type := World -> outcome A * World.

Definition ret {A : Type} (a : A) : M A := fun w => (Return a, w).

Definition throw {A : Type} (e : exn) : M A := fun w => (Throw e, w).

Definition bind {A B : Type} (c : M A) (k : A -> M B) : M B :=
  fun w =>
    match c w with
    | (Return a, w') => k a w'
    | (Throw e, w') => (Throw e, w')
    end.

(** [try { body } catch (error) { handler }] *)
Definition try_catch {A : Type} (body : M A) (handler : exn -> M A) : M A :=
  fun w =>
    match body w with
    | (Return a, w') => (Return a, w')
    | (Throw e, w') => handler e w'
    end.

Notation "x <- c ;; k" := (bind c (fun x => k))
  (at level 61, c at next level, right associativity).
Notation "c ;; k" := (bind c (fun _ => k))
  (at level 61, right associativity).

Definition setCountdown (c : CountdownState) : M unit :=
  fun w => (Return tt, {| card := setCountdownState c (card w); console := console w |}).

Definition console_error (e : LogEntry) : M unit :=
  fun w => (Return tt, {| card := card w; console := console w ++ [e] |}).

(** [v.split(sep)]: only a string has the method. *)
Definition call_split (v : value) (sep : ascii) : M (list string) :=
  match v with
  | Str s => ret (split sep s)
  | Undefined | Null => throw (TypeError "Cannot read properties of undefined")
  | Bool _ | Num _ => throw (TypeError "eventTime.split is not a function")
  end.

(** *** The countdown *)

Definition expired : CountdownState :=
  {| days := 0; hrs := 0; mins := 0; secs := 0; isExpired := true |}.

Section Countdown.
Variable H : Host.

(** The target built from the date prop and the fields of the time prop:
    [[timeHours, timeMinutes] = parts.map(Number)], then
    [new Date(eventDate)] with [setHours(timeHours, timeMinutes, 0, 0)]. *)
Definition targetInstant (date : value) (parts : list string) : num :=
  let fields := map (Number H) parts in
  let timeHours := nth_error fields 0 in
  let timeMinutes := nth_error fields 1 in
  setHours H (new_Date H date)
    (ToNumber_arg timeHours) (ToNumber_arg timeMinutes) (DFin 0%Q) (DFin 0%Q).

(** The body of the [try] block; [now] is the clock read by [new Date()].
    [Math.floor (a / b)] with [0 < b] is [a / b] on [Z]. *)
Definition calculateTimeLeft_try (p : Props) (now : Z) : M unit :=
  if negb (ToBoolean (eventDate p)) || negb (ToBoolean (eventTime p)) then
    setCountdown expired
  else
    parts <- call_split (eventTime p) ":" ;;
    let targetDate := targetInstant (eventDate p) parts in
    match targetDate with
    | NaN =>
        console_error (InvalidDate (eventDate p) (eventTime p)) ;;
        setCountdown expired
    | Int target =>
        let difference := target - now in
        if difference <=? 0 then
          setCountdown expired
        else
          let days := difference / (1000 * 60 * 60 * 24) in
          let hrs := Z.rem difference (1000 * 60 * 60 * 24) / (1000 * 60 * 60) in
          let mins := Z.rem difference (1000 * 60 * 60) / (1000 * 60) in
          let secs := Z.rem difference (1000 * 60) / 1000 in
          setCountdown
            {| days := days; hrs := hrs; mins := mins; secs := secs; isExpired := false |}
    end.

Definition calculateTimeLeft (p : Props) (now : Z) : M unit :=
  try_catch (calculateTimeLeft_try p now)
    (fun error =>
       console_error (ErrorCalculatingCountdown error) ;;
       setCountdown expired).

(** The countdown a card shows after a tick at [now]. *)
Definition countdown_after (p : Props) (now : Z) (w : World) : CountdownState :=
  countdown (card (snd (calculateTimeLeft p now w))).

End Countdown.

(** *** The carousel *)

(** [image ? [image, ...images] : images]; an empty string is falsy. *)
Definition allImages (p : Props) : list string :=
  match image p with
  | Some i => if (i =? "")%string then images p else i :: images p
  | None => images p
  end.

Definition length_of (l : list string) : num := Int (Z.of_nat (length l)).

Definition hasMultipleImages (p : Props) : bool :=
  1 <? Z.of_nat (length (allImages p)).

Definition nextImage (p : Props) (st : State) : State :=
  setCurrentImageIndex
    (fun prev => rem (add prev (Int 1)) (length_of (allImages p))) st.

Definition previousImage (p : Props) (st : State) : State :=
  setCurrentImageIndex
    (fun prev =>
       if strict_eq prev (Int 0) then sub (length_of (allImages p)) (Int 1)
       else sub prev (Int 1)) st.

(** The handler closes over the flag of the render that created it. *)
Definition toggleImageFullscreen (rendered : State) (st : State) : State :=
  setIsImageFullscreen (negb (isImageFullscreen rendered)) st.

(** *** What the rendered card lets happen *)

(** The card renders nothing until the configuration has been fetched. *)
Definition rendersCard (st : State) : bool :=
  match config st with
  | Some _ => true
  | None => false
  end.

Definition rendersImage (p : Props) (st : State) : bool :=
  rendersCard st && (0 <? Z.of_nat (length (allImages p))).

Definition rendersOverlay (p : Props) (st : State) : bool :=
  rendersCard st && (isImageFullscreen st && (0 <? Z.of_nat (length (allImages p)))).

Definition rendersNavigation (p : Props) (st : State) : bool :=
  rendersOverlay p st && hasMultipleImages p.

Definition onCard (f : State -> State) (w : World) : World :=
  {| card := f (card w); console := console w |}.

(** One event of a mounted card: a tick of the one-second timer, the
    arrival of the configuration, or a click on a control that the current
    render shows. *)
Inductive step (H : Host) (p : Props) : World -> World -> Prop :=
| step_tick now w w' :
    calculateTimeLeft H p now w = (Return tt, w') ->
    step H p w w'
| step_config c w :
    step H p w (onCard (setConfig c) w)
| step_expand w :
    rendersCard (card w) = true ->
    step H p w (onCard (setIsExpanded (negb (isExpanded (card w)))) w)
| step_click_image w :
    rendersImage p (card w) = true ->
    step H p w (onCard (toggleImageFullscreen (card w)) w)
| step_close w :
    rendersOverlay p (card w) = true ->
    step H p w (onCard (toggleImageFullscreen (card w)) w)
| step_previous w :
    rendersNavigation p (card w) = true ->
    step H p w (onCard (previousImage p) w)
| step_next w :
    rendersNavigation p (card w) = true ->
    step H p w (onCard (nextImage p) w).

Inductive reachable (H : Host) (p : Props) : World -> Prop :=
| reachable_mount : reachable H p {| card := initialState; console := [] |}
| reachable_step w w' : reachable H p w -> step H p w w' -> reachable H p w'.

(** A run of carousel operations on a card. *)
Inductive navigation : Type :=
| Advance
| Retreat.

Definition navigate (p : Props) (st : State) (n : navigation) : State :=
  match n with
  | Advance => nextImage p st
  | Retreat => previousImage p st
  end.

Definition navigateAll (p : Props) (ns : list navigation) (st : State) : State :=
  fold_left (navigate p) ns st.

End EventCard.

(** ** A host to run scenarios on

    A host in the UTC time zone.  It reads the date-only form [YYYY-MM-DD],
    which ECMAScript fixes as midnight UTC of that day, and the Number of a
    string of decimal digits or of the empty string; on those strings it
    agrees with every engine.  Every other string is NaN to it; the
    scenarios below use such a string only where it is NaN to every
    engine. *)

Module Scenario.
Import JS EventCard.

Definition digit (c : ascii) : option Z :=
  let n := Z.of_nat (nat_of_ascii c) in
  if (48 <=? n) && (n <=? 57) then Some (n - 48) else None.

Fixpoint decimal_from (s : string) (acc : Z) : option Z :=
  match s with
  | EmptyString => Some acc
  | String c rest =>
      match digit c with
      | Some d => decimal_from rest (10 * acc + d)
      | None => None
      end
  end.

Definition decimal (s : string) : option Z :=
  match s with
  | EmptyString => None
  | _ => decimal_from s 0
  end.

Definition StringToNumber (s : string) : double :=
  match s with
  | EmptyString => DFin 0%Q
  | _ =>
      match decimal_from s 0 with
      | Some z => DFin (inject_Z z)
      | None => DNaN
      end
  end.

Definition InLeapYear (y : Z) : bool :=
  (y mod 4 =? 0) && (negb (y mod 100 =? 0) || (y mod 400 =? 0)).

Definition DayFromYear (y : Z) : Z :=
  365 * (y - 1970) + (y - 1969) / 4 - (y - 1901) / 100 + (y - 1601) / 400.

(** Days of the year before month [m] (1 to 12). *)
Definition daysBefore (y m : Z) : Z :=
  nth (Z.to_nat (m - 1)) [0; 31; 59; 90; 120; 151; 181; 212; 243; 273; 304; 334] 0
  + (if InLeapYear y && (2 <? m) then 1 else 0).

Definition daysIn (y m : Z) : Z :=
  if m =? 2 then (if InLeapYear y then 29 else 28)
  else if (m =? 4) || (m =? 6) || (m =? 9) || (m =? 11) then 30
  else 31.

Definition parseIsoDate (s : string) : num :=
  match split "-" s with
  | [ys; ms; ds] =>
      if (String.length ys =? 4)%nat && (String.length ms =? 2)%nat
         && (String.length ds =? 2)%nat
      then
        match decimal ys, decimal ms, decimal ds with
        | Some y, Some m, Some d =>
            if (1 <=? m) && (m <=? 12) && (1 <=? d) && (d <=? daysIn y m)
            then Int ((DayFromYear y + daysBefore y m + d - 1) * msPerDay)
            else NaN
        | _, _, _ => NaN
        end
      else NaN
  | _ => NaN
  end.

Definition utc : Host :=
  {| Date_parse := parseIsoDate;
     Number := StringToNumber;
     LocalTZA := fun _ _ => 0 |}.

(** The same engine on a machine three hours west of Greenwich. *)
Definition utcMinus3 : Host :=
  {| Date_parse := parseIsoDate;
     Number := StringToNumber;
     LocalTZA := fun _ _ => - (3 * msPerHour) |}.

Definition props (date time : value) : Props :=
  {| eventDate := date; eventTime := time; image := None; images := [] |}.

Definition gallery (n : nat) : Props :=
  {| eventDate := Str "2025-01-10"; eventTime := Str "14:00";
     image := None; images := repeat "photo.jpg" n |}.

Definition mounted : World := {| card := initialState; console := [] |}.

(** 2025-01-08T14:00:00Z *)
Definition jan8_2pm : Z := 1736344800000.

End Scenario.

(** ** The properties, as the specification words them *)

Module Spec.
Import JS EventCard.

(** The decomposition of a positive difference in ms: whole days, then
    hours, minutes and seconds of the remainders. *)
Definition decomposition (difference : Z) : CountdownState :=
  {| days := difference / 86400000;
     hrs := (difference mod 86400000) / 3600000;
     mins := (difference mod 3600000) / 60000;
     secs := (difference mod 60000) / 1000;
     isExpired := false |}.

(** The invariant of a countdown state. *)
Definition well_formed (c : CountdownState) : Prop :=
  0 <= days c /\
  0 <= hrs c <= 23 /\
  0 <= mins c <= 59 /\
  0 <= secs c <= 59 /\
  (isExpired c = true -> days c = 0 /\ hrs c = 0 /\ mins c = 0 /\ secs c = 0).

(** A Number that is an integer between [lo] and [hi]. *)
Definition integerBetween (lo hi : Z) (n : double) : bool :=
  match n with
  | DFin q =>
      (Z.pos (Qden (Qred q)) =? 1) && (lo <=? Qnum (Qred q)) && (Qnum (Qred q) <=? hi)
  | _ => false
  end.

(** A time of day that splits at the colon into two integers, hours 0 to 23
    and minutes 0 to 59. *)
Definition timeOfDay (H : Host) (v : value) : bool :=
  match v with
  | Str s =>
      match map (Number H) (split ":" s) with
      | [h; m] => integerBetween 0 23 h && integerBetween 0 59 m
      | _ => false
      end
  | _ => false
  end.

(** An input the specification calls invalid: a date or time that is
    absent or empty, a date that does not parse, or a time that is not a
    time of day as above. *)
Definition invalidInput (H : Host) (p : Props) : bool :=
  negb (ToBoolean (eventDate p)) || negb (ToBoolean (eventTime p))
  || isNaN (new_Date H (eventDate p)) || negb (timeOfDay H (eventTime p)).

Definition finite (n : double) : bool :=
  match n with
  | DFin _ => true
  | _ => false
  end.

(** A time of day whose first two fields at the colon are both there and
    both have a finite Number. *)
Definition finiteFields (H : Host) (v : value) : bool :=
  match v with
  | Str s =>
      match map (Number H) (split ":" s) with
      | h :: m :: _ => finite h && finite m
      | _ => false
      end
  | _ => false
  end.

(** The index of a card is a position in a sequence of [n] images. *)
Definition inRange (n : Z) (i : num) : Prop :=
  exists j, i = Int j /\ 0 <= j < n.

End Spec.

(** ** What a card lets one observe *)

Module Observe.
Import JS EventCard.

(** The seconds a countdown state stands for. *)
Definition remainingSeconds (c : CountdownState) : Z :=
  days c * 86400 + hrs c * 3600 + mins c * 60 + secs c.

(** A string in which the character [sep] does not occur. *)
Fixpoint free (sep : ascii) (s : string) : bool :=
  match s with
  | EmptyString => true
  | String c rest => negb (Ascii.eqb c sep) && free sep rest
  end.

(** [fields.join(sep)] *)
Definition join (sep : ascii) (fields : list string) : string :=
  String.concat (String sep "") fields.

(** The occurrences of [sep] in a string. *)
Fixpoint occurrences (sep : ascii) (s : string) : nat :=
  match s with
  | EmptyString => 0
  | String c rest => (if Ascii.eqb c sep then 1 else 0) + occurrences sep rest
  end.

(** The advances of a run minus its retreats. *)
Definition displacement (ns : list navigation) : Z :=
  fold_right (fun n d => match n with Advance => d + 1 | Retreat => d - 1 end) 0 ns.

(** [allImages[i]]: an index that is NaN, negative or past the end reads
    [undefined]. *)
Definition at_index (l : list string) (i : num) : option string :=
  match i with
  | NaN => None
  | Int z => if z <? 0 then None else nth_error l (Z.to_nat z)
  end.

(** The position shown in the overlay: [currentImageIndex + 1]. *)
Definition shownPosition (st : State) : num := add (currentImageIndex st) (Int 1).

End Observe.

(** ** What the card renders

    The text the card draws from its state: the countdown badges and the
    paragraphs of the description.  A string is the sequence of its code
    units, all below 256 here. *)

Module Render.
Import JS EventCard.

(** [String(n)] of an integral Number below 1e21 in magnitude: its decimal
    digits, after a minus sign when negative. *)
Definition String_of (z : Z) : string := NilZero.string_of_int (Z.to_int z).

(** [s.padStart(n, c)] with a pad of one character. *)
Definition padStart (n : nat) (c : ascii) (s : string) : string :=
  (string_of_list_ascii (repeat c (n - String.length s)) ++ s)%string.

(** The countdown block: the notice that the event is over, or the four
    badges. *)
Inductive CountdownView : Type :=
| ExpiredNotice
| Badges (d h m s : string).

Definition countdownView (c : CountdownState) : CountdownView :=
  if isExpired c then ExpiredNotice
  else
    Badges (String_of (days c) ++ "d")
           (padStart 2 "0" (String_of (hrs c)) ++ "h")
           (padStart 2 "0" (String_of (mins c)) ++ "m")
           (padStart 2 "0" (String_of (secs c)) ++ "s").

(** Two decimal digits. *)
Definition twoDigits (s : string) : bool :=
  match s with
  | String a (String b EmptyString) =>
      match Scenario.digit a, Scenario.digit b with
      | Some _, Some _ => true
      | _, _ => false
      end
  | _ => false
  end.

(** White space and line terminators among the code units below 256: tab,
    line feed, vertical tab, form feed, carriage return, space and the
    no-break space. *)
Definition isWhiteSpace (c : ascii) : bool :=
  let n := nat_of_ascii c in
  ((9 <=? n)%nat && (n <=? 13)%nat) || (n =? 32)%nat || (n =? 160)%nat.

Fixpoint trimStart (s : list ascii) : list ascii :=
  match s with
  | [] => []
  | c :: rest => if isWhiteSpace c then trimStart rest else s
  end.

Definition trimEnd (s : list ascii) : list ascii := rev (trimStart (rev s)).

(** [s.trim()] *)
Definition trim (s : string) : string :=
  string_of_list_ascii (trimEnd (trimStart (list_ascii_of_string s))).

Definition lineFeed : ascii := ascii_of_nat 10.

(** [description.split('\n').map((paragraph, index) =>
      paragraph.trim() ? <p key={index}>{paragraph}</p> : null)]:
    for each line its key and text, or [null]. *)
Fixpoint paragraphsFrom (index : nat) (lines : list string) : list (option (nat * string)) :=
  match lines with
  | [] => []
  | paragraph :: rest =>
      (if ToBoolean (Str (trim paragraph)) then Some (index, paragraph) else None)
      :: paragraphsFrom (S index) rest
  end.

Definition paragraphs (description : string) : list (option (nat * string)) :=
  paragraphsFrom 0 (split lineFeed description).

(** The paragraphs that are drawn: a [null] child draws nothing. *)
Fixpoint drawn {A : Type} (children : list (option A)) : list A :=
  match children with
  | [] => []
  | Some x :: rest => x :: drawn rest
  | None :: rest => drawn rest
  end.

(** A string with a character that is not white space. *)
Definition hasInk (s : string) : bool :=
  existsb (fun c => negb (isWhiteSpace c)) (list_ascii_of_string s).

End Render.

(** ** The life of the timer

    The effect of the card runs [calculateTimeLeft] at once, starts an
    interval on it, and returns a cleanup that clears that interval.  The
    framework runs the effect when the card is mounted, runs the cleanup
    and the effect again when it re-renders (always so when [eventDate] or
    [eventTime] has changed), and runs the cleanup when the card is
    unmounted. *)

Module Lifecycle.
Import JS EventCard.

(** The timer table of the page: the handles of the running intervals, and
    the handle that the next one gets. *)
Record Timers : Type := {
  running : list nat;
  nextHandle : nat
}.

Definition setInterval (k : Timers) : nat * Timers :=
  (nextHandle k,
   {| running := nextHandle k :: running k; nextHandle := S (nextHandle k) |}).

(** Clearing a handle that is not running does nothing. *)
Definition clearInterval (handle : nat) (k : Timers) : Timers :=
  {| running := remove Nat.eq_dec handle (running k); nextHandle := nextHandle k |}.

(** One run of the effect on props [p]: the first tick, then the interval.
    The timer it returns is the one its cleanup closes over. *)
Definition effect (H : Host) (p : Props) (now : Z) (w : World) (k : Timers)
  : nat * World * Timers :=
  let w' := snd (calculateTimeLeft H p now w) in
  let (timer, k') := setInterval k in
  (timer, w', k').

Definition cleanup (timer : nat) (k : Timers) : Timers := clearInterval timer k.

(** A card is unmounted, or mounted with its current props, the props its
    interval callback closes over, and the timer of its last effect. *)
Inductive Instance : Type :=
| Unmounted
| Mounted (current closure : Props) (timer : nat).

Record Page : Type := {
  instance : Instance;
  world : World;
  timers : Timers
}.

Inductive lifecycle (H : Host) : Page -> Page -> Prop :=
| life_mount p now w k :
    lifecycle H
      {| instance := Unmounted; world := w; timers := k |}
      {| instance := Mounted p p (fst (fst (effect H p now w k)));
         world := snd (fst (effect H p now w k));
         timers := snd (effect H p now w k) |}
| life_rerun current closure timer p now w k :
    lifecycle H
      {| instance := Mounted current closure timer; world := w; timers := k |}
      {| instance := Mounted p p (fst (fst (effect H p now w (cleanup timer k))));
         world := snd (fst (effect H p now w (cleanup timer k)));
         timers := snd (effect H p now w (cleanup timer k)) |}
| life_keep current closure timer p w k :
    eventDate p = eventDate current ->
    eventTime p = eventTime current ->
    lifecycle H
      {| instance := Mounted current closure timer; world := w; timers := k |}
      {| instance := Mounted p closure timer; world := w; timers := k |}
| life_fire current closure timer now w k :
    In timer (running k) ->
    lifecycle H
      {| instance := Mounted current closure timer; world := w; timers := k |}
      {| instance := Mounted current closure timer;
         world := snd (calculateTimeLeft H closure now w);
         timers := k |}
| life_unmount current closure timer w k :
    lifecycle H
      {| instance := Mounted current closure timer; world := w; timers := k |}
      {| instance := Unmounted; world := w; timers := cleanup timer k |}.

Inductive lives (H : Host) : Page -> Page -> Prop :=
| lives_start pg : lives H pg pg
| lives_on pg pg' pg'' : lives H pg pg' -> lifecycle H pg' pg'' -> lives H pg pg''.

(** The intervals that a card holds. *)
Definition held (i : Instance) : list nat :=
  match i with
  | Unmounted => []
  | Mounted _ _ timer => [timer]
  end.

(** What every life of a card keeps, over the intervals [others] that were
    running before it. *)
Definition tidy (others : list nat) (pg : Page) : Prop :=
  running (timers pg) = (held (instance pg) ++ others)%list /\
  Forall (fun h => (h < nextHandle (timers pg))%nat) (running (timers pg)) /\
  match instance pg with
  | Unmounted => True
  | Mounted current closure timer =>
      ~ In timer others /\
      eventDate closure = eventDate current /\
      eventTime closure = eventTime current
  end.

End Lifecycle.

(** ** The news page: the query for the list of news

    The page asks the backend for the news, filtered by the search term and
    the selected category, and hands the rows, or the error, to the query
    cache, which keys the answer by the term and the category. *)

Module News.
Import JS.

Inductive Filter : Type :=
| Ilike (column pattern : string)
| Eq (column value : string).

(** The calls made on the query builder, in order. *)
Record Query : Type := {
  from : string;
  select : string;
  order : string;
  ascending : bool;
  filters : list Filter
}.

Definition ilike (column pattern : string) (q : Query) : Query :=
  {| from := from q; select := select q; order := order q;
     ascending := ascending q; filters := (filters q ++ [Ilike column pattern])%list |}.

Definition eq (column value : string) (q : Query) : Query :=
  {| from := from q; select := select q; order := order q;
     ascending := ascending q; filters := (filters q ++ [Eq column value])%list |}.

(** The query that [queryFn] builds from the two state cells. *)
Definition newsQuery (searchTerm selectedCategory : string) : Query :=
  let query :=
    {| from := "news"; select := "*, categories(*)"; order := "created_at";
       ascending := false; filters := [] |} in
  let query :=
    if ToBoolean (Str searchTerm)
    then ilike "title" ("%" ++ searchTerm ++ "%") query
    else query in
  let query :=
    if ToBoolean (Str selectedCategory)
    then eq "category_id" selectedCategory query
    else query in
  query.

(** The key under which the cache files the answer. *)
Definition queryKey (searchTerm selectedCategory : string) : list string :=
  ["news"; searchTerm; selectedCategory].

Section Fetch.
(** The rows and the errors of the backend. *)
Variables Row Error : Type.

(** What awaiting a query gives: [{ data, error }], either of them null. *)
Record Response : Type := {
  data : option (list Row);
  error : option Error
}.

Inductive Line : Type :=
| log_fetching (searchTerm selectedCategory : string)
| log_fetched (data : option (list Row))
| error_query (e : Error)
| error_fetching (e : Error).

(** A line written by [console.error]. *)
Definition isError (l : Line) : bool :=
  match l with
  | error_query _ | error_fetching _ => true
  | _ => false
  end.

Inductive settled (A : Type) : Type :=
| Resolved (a : A)
| Rejected (e : Error).
Arguments Resolved {A} a.
Arguments Rejected {A} e.

(** A computation that writes to the console and may throw. *)
Definition Q (A : Type) : Type := list Line -> settled A * list Line.

Definition resolve {A : Type} (a : A) : Q A := fun c => (Resolved a, c).
Definition throwError {A : Type} (e : Error) : Q A := fun c => (Rejected e, c).
Definition write (l : Line) : Q unit := fun c => (Resolved tt, (c ++ [l])%list).

Definition andThen {A B : Type} (m : Q A) (k : A -> Q B) : Q B :=
  fun c =>
    match m c with
    | (Resolved a, c') => k a c'
    | (Rejected e, c') => (Rejected e, c')
    end.

Definition tryCatch {A : Type} (body : Q A) (handler : Error -> Q A) : Q A :=
  fun c =>
    match body c with
    | (Resolved a, c') => (Resolved a, c')
    | (Rejected e, c') => handler e c'
    end.

(** The backend: awaiting a query gives a response, or throws. *)
Variable await : Query -> settled Response.

Definition awaiting (q : Query) : Q Response := fun c => (await q, c).

Definition queryFn (searchTerm selectedCategory : string) : Q (list Row) :=
  andThen (write (log_fetching searchTerm selectedCategory)) (fun _ =>
  tryCatch
    (andThen (awaiting (newsQuery searchTerm selectedCategory)) (fun r =>
     match error r with
     | Some e => andThen (write (error_query e)) (fun _ => throwError e)
     | None =>
         andThen (write (log_fetched (data r))) (fun _ =>
         resolve (match data r with Some rows => rows | None => [] end))
     end))
    (fun err => andThen (write (error_fetching err)) (fun _ => throwError err))).

End Fetch.

Arguments data {Row Error} r.
Arguments error {Row Error} r.
Arguments log_fetching {Row Error} searchTerm selectedCategory.
Arguments log_fetched {Row Error} data.
Arguments error_query {Row Error} e.
Arguments error_fetching {Row Error} e.
Arguments isError {Row Error} l.
Arguments Resolved {Error A} a.
Arguments Rejected {Error A} e.
Arguments queryFn {Row Error} await searchTerm selectedCategory.

End News.

(** ** Cards and pages to run scenarios on *)

Module Stage.
Import JS EventCard Lifecycle Scenario.

Definition event : Props := props (Str "2025-01-10") (Str "14:00").

(** The instant of [event] on the UTC host. *)
Definition eventInstant : Z := 1736517600000.

Definition red : SiteConfig := {| primary_color := "#ff0000" |}.

(** A mounted card whose configuration has arrived. *)
Definition configured : World := onCard (setConfig red) mounted.

(** The same card after a click on its image. *)
Definition fullscreen : World :=
  onCard (toggleImageFullscreen (card configured)) configured.

(** The card of three images, in the overlay, after one click on next. *)
Definition onSecondImage : World := onCard (nextImage (gallery 3)) fullscreen.

(** A configured card after a tick two days before the event. *)
Definition ticked : World := snd (calculateTimeLeft utc event jan8_2pm configured).

(** A page on which one foreign interval runs and no card is mounted. *)
Definition emptyPage : Page :=
  {| instance := Unmounted;
     world := mounted;
     timers := {| running := [7%nat]; nextHandle := 8 |} |}.

(** That page with the card of [event] mounted. *)
Definition mountedPage : Page :=
  {| instance := Mounted event event (fst (fst (effect utc event jan8_2pm mounted (timers emptyPage))));
     world := snd (fst (effect utc event jan8_2pm mounted (timers emptyPage)));
     timers := snd (effect utc event jan8_2pm mounted (timers emptyPage)) |}.

(** The same event with a gallery. *)
Definition eventWithImages : Props := gallery 3.

(** The mounted card re-rendered with images, date and time unchanged. *)
Definition rerenderedPage : Page :=
  {| instance := Mounted eventWithImages event (fst (fst (effect utc event jan8_2pm mounted (timers emptyPage))));
     world := world mountedPage;
     timers := timers mountedPage |}.

(** The page after the card has gone. *)
Definition leftPage : Page :=
  {| instance := Unmounted;
     world := world mountedPage;
     timers := cleanup (fst (fst (effect utc event jan8_2pm mounted (timers emptyPage))))
                 (timers mountedPage) |}.

End Stage.

Import JS EventCard Spec.

(** ** The runtime *)

Lemma split_from_nonempty sep s field : split_from sep s field <> [].
Proof.
  revert field; induction s as [|c rest IH]; intros field; simpl.
  - discriminate.
  - destruct (Ascii.eqb c sep); [discriminate | apply IH].
Qed.

Lemma TimeClip_range t z : TimeClip t = Int z -> Z.abs z <= maxTime.
Proof.
  destruct t as [|y]; simpl; [discriminate|].
  destruct (Z.ltb_spec maxTime (Z.abs y)); [discriminate|].
  intros E; injection E as <-; assumption.
Qed.

Lemma setHours_NaN H hour min sec ms : setHours H NaN hour min sec ms = NaN.
Proof. reflexivity. Qed.

Lemma setHours_not_finite H t hour min sec ms :
  finite hour && finite min = false -> setHours H t hour min sec ms = NaN.
Proof.
  intros E; destruct t as [|z]; [reflexivity|].
  unfold setHours, MakeTime.
  destruct hour, min; simpl in E; try discriminate; reflexivity.
Qed.

(** A target instant is a time value: NaN or within the range of dates. *)
Lemma targetInstant_range H date parts t :
  targetInstant H date parts = Int t -> Z.abs t <= maxTime.
Proof.
  unfold targetInstant, setHours.
  destruct (new_Date H date); [discriminate|].
  apply TimeClip_range.
Qed.

(** ** The countdown *)

Section CountdownFacts.
Variable H : Host.

(** The guard of the first line: a falsy date or time. *)
Lemma calculateTimeLeft_absent p now w :
  ToBoolean (eventDate p) = false \/ ToBoolean (eventTime p) = false ->
  calculateTimeLeft H p now w = (Return tt, onCard (setCountdownState expired) w).
Proof.
  intros [E | E]; unfold calculateTimeLeft, try_catch, calculateTimeLeft_try;
    rewrite E; simpl; [reflexivity|].
  rewrite orb_true_r; reflexivity.
Qed.

(** A truthy time that is not a string has no [split]: the call raises, and
    the handler reports it and shows the expired state. *)
Lemma calculateTimeLeft_raises p now w :
  ToBoolean (eventDate p) = true -> ToBoolean (eventTime p) = true ->
  (forall s, eventTime p <> Str s) ->
  exists e,
    fst (calculateTimeLeft_try H p now w) = Throw e /\
    calculateTimeLeft H p now w =
      (Return tt,
       {| card := setCountdownState expired (card w);
          console := console w ++ [ErrorCalculatingCountdown e] |}).
Proof.
  intros Ed Et Hs.
  unfold calculateTimeLeft, try_catch, calculateTimeLeft_try.
  rewrite Ed, Et; simpl.
  destruct (eventTime p) as [| |b|n|s] eqn:E; simpl in Et; try discriminate;
    try (eexists; split; reflexivity).
  exfalso; exact (Hs s eq_refl).
Qed.

(** A truthy date and a non-empty time string: the run is decided by the
    target instant. *)
Lemma calculateTimeLeft_string p now w s :
  ToBoolean (eventDate p) = true -> ToBoolean (eventTime p) = true ->
  eventTime p = Str s ->
  calculateTimeLeft H p now w =
    match targetInstant H (eventDate p) (split ":" s) with
    | NaN =>
        (Return tt,
         {| card := setCountdownState expired (card w);
            console := console w ++ [InvalidDate (eventDate p) (eventTime p)] |})
    | Int target =>
        if target - now <=? 0 then (Return tt, onCard (setCountdownState expired) w)
        else
          (Return tt,
           onCard
             (setCountdownState
                {| days := (target - now) / 86400000;
                   hrs := Z.rem (target - now) 86400000 / 3600000;
                   mins := Z.rem (target - now) 3600000 / 60000;
                   secs := Z.rem (target - now) 60000 / 1000;
                   isExpired := false |}) w)
    end.
Proof.
  intros Ed Et Es.
  unfold calculateTimeLeft, try_catch, calculateTimeLeft_try.
  rewrite Ed, Et, Es; cbn [negb orb call_split bind ret].
  destruct (targetInstant H (eventDate p) (split ":" s)) as [|target].
  - reflexivity.
  - cbn [bind]. destruct (target - now <=? 0); reflexivity.
Qed.

End CountdownFacts.

Lemma rem_decomposition d :
  0 < d ->
  {| days := d / 86400000;
     hrs := Z.rem d 86400000 / 3600000;
     mins := Z.rem d 3600000 / 60000;
     secs := Z.rem d 60000 / 1000;
     isExpired := false |} = decomposition d.
Proof.
  intros Hd; unfold decomposition.
  rewrite !Z.rem_mod_nonneg by lia; reflexivity.
Qed.

Lemma decomposition_seconds d :
  0 < d ->
  days (decomposition d) * 86400 + hrs (decomposition d) * 3600
  + mins (decomposition d) * 60 + secs (decomposition d) = d / 1000.
Proof.
  intros Hd; unfold decomposition; simpl.
  Z.to_euclidean_division_equations; lia.
Qed.

Lemma decomposition_well_formed d : 0 < d -> well_formed (decomposition d).
Proof.
  intros Hd; unfold well_formed, decomposition; simpl.
  repeat split; try discriminate; Z.to_euclidean_division_equations; lia.
Qed.

Lemma expired_well_formed : well_formed expired.
Proof. unfold well_formed, expired; simpl; repeat split; lia. Qed.

(** Every tick ends normally, shows either the expired state or the
    decomposition of a positive difference, and only appends to the
    console. *)
Lemma calculateTimeLeft_cases H p now w :
  exists c log,
    calculateTimeLeft H p now w =
      (Return tt,
       {| card := setCountdownState c (card w); console := console w ++ log |}) /\
    (c = expired \/ exists d, 0 < d /\ c = decomposition d).
Proof.
  destruct (ToBoolean (eventDate p)) eqn:Ed;
    [destruct (ToBoolean (eventTime p)) eqn:Et|].
  - destruct (eventTime p) as [| |b|n|s] eqn:E; rewrite <- E in Et.
    1-4: destruct (calculateTimeLeft_raises H p now w Ed Et) as (e & _ & R);
      [rewrite E; discriminate
      | exists expired, [ErrorCalculatingCountdown e]; split; [exact R | now left]].
    rewrite (calculateTimeLeft_string H p now w s Ed Et E).
    destruct (targetInstant H (eventDate p) (split ":" s)) as [|t].
    + exists expired, [InvalidDate (eventDate p) (eventTime p)].
      split; [reflexivity | now left].
    + destruct (Z.leb_spec (t - now) 0) as [Hle | Hlt].
      * exists expired, []; rewrite app_nil_r; split; [reflexivity | now left].
      * exists (decomposition (t - now)), []; rewrite app_nil_r.
        split; [rewrite rem_decomposition by assumption; reflexivity|].
        right; exists (t - now); split; [assumption | reflexivity].
  - rewrite (calculateTimeLeft_absent H p now w (or_intror Et)).
    exists expired, []; rewrite app_nil_r; split; [reflexivity | now left].
  - rewrite (calculateTimeLeft_absent H p now w (or_introl Ed)).
    exists expired, []; rewrite app_nil_r; split; [reflexivity | now left].
Qed.

(** A date that is NaN, or a time without two finite leading fields, has no
    target instant. *)
Lemma targetInstant_invalid H date s :
  new_Date H date = NaN \/ finiteFields H (Str s) = false ->
  targetInstant H date (split ":" s) = NaN.
Proof.
  unfold targetInstant, finiteFields.
  intros [E | E].
  - rewrite E; apply setHours_NaN.
  - apply setHours_not_finite.
    destruct (map (Number H) (split ":" s)) as [|h [|m fields]]; simpl in *;
      try reflexivity; try assumption.
    apply andb_false_r.
Qed.

(** C1: whenever the date and the time are present, the target instant [t]
    is a valid time value and [difference = t - now] is strictly positive,
    the tick shows a countdown that is not expired, with
    days = floor(difference / 86400000),
    hrs = floor((difference mod 86400000) / 3600000),
    mins = floor((difference mod 3600000) / 60000) and
    secs = floor((difference mod 60000) / 1000); these add up to
    floor(difference / 1000) seconds. *)
Theorem countdown_of_future_target H p now w s t :
  ToBoolean (eventDate p) = true ->
  ToBoolean (eventTime p) = true ->
  eventTime p = Str s ->
  targetInstant H (eventDate p) (split ":" s) = Int t ->
  0 < t - now ->
  calculateTimeLeft H p now w =
    (Return tt, onCard (setCountdownState (decomposition (t - now))) w) /\
  countdown_after H p now w =
    {| days := (t - now) / 86400000;
       hrs := ((t - now) mod 86400000) / 3600000;
       mins := ((t - now) mod 3600000) / 60000;
       secs := ((t - now) mod 60000) / 1000;
       isExpired := false |} /\
  days (countdown_after H p now w) * 86400 + hrs (countdown_after H p now w) * 3600
  + mins (countdown_after H p now w) * 60 + secs (countdown_after H p now w)
  = (t - now) / 1000.
Proof.
  intros Ed Et Es Ht Hd.
  assert (R : calculateTimeLeft H p now w =
              (Return tt, onCard (setCountdownState (decomposition (t - now))) w)).
  { rewrite (calculateTimeLeft_string H p now w s Ed Et Es), Ht.
    destruct (Z.leb_spec (t - now) 0); [lia|].
    rewrite rem_decomposition by assumption; reflexivity. }
  unfold countdown_after; rewrite R; cbn [snd onCard card setCountdownState countdown].
  repeat split. apply decomposition_seconds; assumption.
Qed.

(** C2: whenever the date and the time are present, the target instant [t]
    is a valid time value and [now] is at or after it, the tick shows
    exactly the expired state, all four numbers zero. *)
Theorem countdown_of_past_target H p now w s t :
  ToBoolean (eventDate p) = true ->
  ToBoolean (eventTime p) = true ->
  eventTime p = Str s ->
  targetInstant H (eventDate p) (split ":" s) = Int t ->
  t - now <= 0 ->
  calculateTimeLeft H p now w = (Return tt, onCard (setCountdownState expired) w) /\
  countdown_after H p now w =
    {| days := 0; hrs := 0; mins := 0; secs := 0; isExpired := true |}.
Proof.
  intros Ed Et Es Ht Hd.
  assert (R : calculateTimeLeft H p now w =
              (Return tt, onCard (setCountdownState expired) w)).
  { rewrite (calculateTimeLeft_string H p now w s Ed Et Es), Ht.
    destruct (Z.leb_spec (t - now) 0); [reflexivity | lia]. }
  unfold countdown_after; rewrite R; split; reflexivity.
Qed.

(** C3, amended: when the date or the time is absent or empty, or the date
    does not parse, or the time is not a string whose first two fields at
    the colon both have a finite Number, the tick ends normally and shows
    the expired state. *)
Theorem countdown_of_invalid_input H p now w :
  ToBoolean (eventDate p) = false \/
  ToBoolean (eventTime p) = false \/
  new_Date H (eventDate p) = NaN \/
  finiteFields H (eventTime p) = false ->
  fst (calculateTimeLeft H p now w) = Return tt /\
  countdown_after H p now w = expired.
Proof.
  intros Hin; unfold countdown_after.
  destruct (ToBoolean (eventDate p)) eqn:Ed;
    [destruct (ToBoolean (eventTime p)) eqn:Et|].
  - destruct (eventTime p) as [| |b|n|s] eqn:E; rewrite <- E in Et.
    1-4: destruct (calculateTimeLeft_raises H p now w Ed Et) as (e & _ & R);
      [rewrite E; discriminate | rewrite R; split; reflexivity].
    rewrite (calculateTimeLeft_string H p now w s Ed Et E).
    rewrite targetInstant_invalid; [split; reflexivity|].
    destruct Hin as [F | [F | [F | F]]]; try discriminate; [left | right]; assumption.
  - rewrite (calculateTimeLeft_absent H p now w (or_intror Et)); split; reflexivity.
  - rewrite (calculateTimeLeft_absent H p now w (or_introl Ed)); split; reflexivity.
Qed.

(** C4: a tick never raises.  For every date, time and clock it ends
    normally with a well-formed countdown state, and when the [try] block
    raises, that state is the expired one. *)
Theorem calculateTimeLeft_never_raises H p now w :
  exists w',
    calculateTimeLeft H p now w = (Return tt, w') /\
    well_formed (countdown (card w')) /\
    (forall e, fst (calculateTimeLeft_try H p now w) = Throw e ->
               countdown (card w') = expired).
Proof.
  destruct (calculateTimeLeft_cases H p now w) as (c & log & R & Hc).
  eexists; split; [exact R|]; split.
  - cbn [card setCountdownState countdown].
    destruct Hc as [-> | (d & Hd & ->)];
      [apply expired_well_formed | apply decomposition_well_formed; assumption].
  - intros e He.
    revert R; unfold calculateTimeLeft, try_catch.
    destruct (calculateTimeLeft_try H p now w) as [[[]|e'] w1]; simpl in He;
      [discriminate|].
    cbn; intros R.
    apply (f_equal (fun r => countdown (card (snd r)))) in R; simpl in R.
    symmetry; exact R.
Qed.

(** C5: the countdown state after any tick has days >= 0, hrs in 0..23,
    mins in 0..59 and secs in 0..59, and all four are zero whenever it is
    expired. *)
Theorem countdown_well_formed H p now w :
  well_formed (countdown_after H p now w).
Proof.
  unfold countdown_after.
  destruct (calculateTimeLeft_cases H p now w) as (c & log & R & Hc).
  rewrite R; cbn [snd card setCountdownState countdown].
  destruct Hc as [-> | (d & Hd & ->)];
    [apply expired_well_formed | apply decomposition_well_formed; assumption].
Qed.

(** ** The carousel *)

Lemma nextImage_index p st i :
  0 < Z.of_nat (length (allImages p)) ->
  currentImageIndex st = Int i ->
  currentImageIndex (nextImage p st) = Int (Z.rem (i + 1) (Z.of_nat (length (allImages p)))).
Proof.
  intros HN Hi; unfold nextImage, length_of; simpl; rewrite Hi; simpl.
  destruct (Z.eqb_spec (Z.of_nat (length (allImages p))) 0); [lia | reflexivity].
Qed.

Lemma previousImage_index p st i :
  currentImageIndex st = Int i ->
  currentImageIndex (previousImage p st) =
    Int (if i =? 0 then Z.of_nat (length (allImages p)) - 1 else i - 1).
Proof.
  intros Hi; unfold previousImage, length_of; simpl; rewrite Hi; simpl.
  destruct (i =? 0); reflexivity.
Qed.

Lemma nextImage_inRange p st :
  inRange (Z.of_nat (length (allImages p))) (currentImageIndex st) ->
  inRange (Z.of_nat (length (allImages p))) (currentImageIndex (nextImage p st)).
Proof.
  intros (i & Hi & Hr).
  exists (Z.rem (i + 1) (Z.of_nat (length (allImages p)))); split.
  - apply nextImage_index; [lia | assumption].
  - rewrite Z.rem_mod_nonneg by lia. apply Z.mod_pos_bound; lia.
Qed.

Lemma previousImage_inRange p st :
  inRange (Z.of_nat (length (allImages p))) (currentImageIndex st) ->
  inRange (Z.of_nat (length (allImages p))) (currentImageIndex (previousImage p st)).
Proof.
  intros (i & Hi & Hr).
  eexists; split; [apply previousImage_index; exact Hi|].
  destruct (Z.eqb_spec i 0); lia.
Qed.

(** The handlers of the carousel touch nothing but the index. *)
Lemma setCurrentImageIndex_same f st :
  f (currentImageIndex st) = currentImageIndex st ->
  setCurrentImageIndex f st = st.
Proof.
  intros E; destruct st; unfold setCurrentImageIndex; simpl in *; rewrite E; reflexivity.
Qed.

(** A step either leaves the index alone or is a click on a navigation
    control, which only a card with more than one image shows. *)
Lemma step_index H p w w' :
  step H p w w' ->
  currentImageIndex (card w') = currentImageIndex (card w) \/
  (1 < Z.of_nat (length (allImages p)) /\
   (card w' = previousImage p (card w) \/ card w' = nextImage p (card w))).
Proof.
  intros S; destruct S as [now w w' R | c w | w _ | w _ | w _ | w Hn | w Hn].
  - left.
    destruct (calculateTimeLeft_cases H p now w) as (c & log & R' & _).
    rewrite R' in R; injection R as <-; reflexivity.
  - left; reflexivity.
  - left; reflexivity.
  - left; reflexivity.
  - left; reflexivity.
  - right; unfold rendersNavigation, hasMultipleImages in Hn.
    apply andb_prop in Hn as [_ Hn]; apply Z.ltb_lt in Hn; split; [lia | now left].
  - right; unfold rendersNavigation, hasMultipleImages in Hn.
    apply andb_prop in Hn as [_ Hn]; apply Z.ltb_lt in Hn; split; [lia | now right].
Qed.

(** C6: on a sequence of [N > 0] images, advance moves index [i] to
    [(i + 1) mod N], and retreat moves it to [N - 1] when [i = 0] and to
    [i - 1] otherwise; with [N = 3] and [i = 0], three advances visit 1, 2
    and 0, and one retreat gives 2. *)
Theorem advance_and_retreat p st i :
  0 < Z.of_nat (length (allImages p)) ->
  currentImageIndex st = Int i ->
  0 <= i ->
  currentImageIndex (nextImage p st) = Int ((i + 1) mod Z.of_nat (length (allImages p))) /\
  currentImageIndex (previousImage p st) =
    Int (if i =? 0 then Z.of_nat (length (allImages p)) - 1 else i - 1) /\
  (Z.of_nat (length (allImages p)) = 3 -> i = 0 ->
   map currentImageIndex
     [nextImage p st; nextImage p (nextImage p st);
      nextImage p (nextImage p (nextImage p st))] = [Int 1; Int 2; Int 0] /\
   currentImageIndex (previousImage p st) = Int 2).
Proof.
  intros HN Hi H0.
  pose proof (nextImage_index p st i HN Hi) as E1.
  split; [rewrite E1, Z.rem_mod_nonneg by lia; reflexivity|].
  split; [apply previousImage_index; assumption|].
  intros H3 ->.
  pose proof (nextImage_index p _ _ HN E1) as E2.
  pose proof (nextImage_index p _ _ HN E2) as E3.
  rewrite H3 in E1, E2, E3.
  split.
  - cbn [map]; rewrite E1, E2, E3; reflexivity.
  - rewrite (previousImage_index p st 0 Hi), H3; reflexivity.
Qed.

(** C7: on a sequence of [N > 0] images, an index that starts in [0, N)
    is still in [0, N) after any run of advances and retreats. *)
Theorem navigation_stays_in_range p ns st :
  0 < Z.of_nat (length (allImages p)) ->
  inRange (Z.of_nat (length (allImages p))) (currentImageIndex st) ->
  inRange (Z.of_nat (length (allImages p))) (currentImageIndex (navigateAll p ns st)).
Proof.
  intros _; revert st; unfold navigateAll.
  induction ns as [|n ns IH]; intros st Hr; simpl; [assumption|].
  apply IH; destruct n; simpl;
    [apply nextImage_inRange | apply previousImage_inRange]; assumption.
Qed.

(** C8: on a card without images no navigation control is rendered, so no
    event runs the advance or the retreat: every step leaves the index as
    it is, no remainder by zero is taken, and the index of every reachable
    card is the initial 0. *)
Theorem no_images_no_navigation H p :
  length (allImages p) = 0%nat ->
  (forall st, rendersNavigation p st = false) /\
  (forall w w', step H p w w' ->
     currentImageIndex (card w') = currentImageIndex (card w)) /\
  (forall w, reachable H p w -> currentImageIndex (card w) = Int 0).
Proof.
  intros HN.
  assert (Hstep : forall w w', step H p w w' ->
            currentImageIndex (card w') = currentImageIndex (card w)).
  { intros w w' S; destruct (step_index H p w w' S) as [E | [Hlt _]];
      [exact E | rewrite HN in Hlt; simpl in Hlt; lia]. }
  repeat split.
  - intros st; unfold rendersNavigation, hasMultipleImages.
    rewrite HN; simpl; apply andb_false_r.
  - exact Hstep.
  - intros w R; induction R as [|w w' _ IH S]; [reflexivity|].
    rewrite (Hstep w w' S); exact IH.
Qed.

(** C9: the fullscreen toggle of the current render flips the fullscreen
    flag and leaves the index, the expansion, the countdown, the
    configuration and the console as they are. *)
Theorem toggle_flips_flag_only w :
  isImageFullscreen (card (onCard (toggleImageFullscreen (card w)) w))
    = negb (isImageFullscreen (card w)) /\
  currentImageIndex (card (onCard (toggleImageFullscreen (card w)) w))
    = currentImageIndex (card w) /\
  isExpanded (card (onCard (toggleImageFullscreen (card w)) w)) = isExpanded (card w) /\
  countdown (card (onCard (toggleImageFullscreen (card w)) w)) = countdown (card w) /\
  config (card (onCard (toggleImageFullscreen (card w)) w)) = config (card w) /\
  console (onCard (toggleImageFullscreen (card w)) w) = console w.
Proof. repeat split. Qed.

(** C10: on a sequence of [N > 0] images and a card whose index is in
    [0, N), a retreat undoes an advance and an advance undoes a retreat. *)
Theorem advance_retreat_inverse p st :
  0 < Z.of_nat (length (allImages p)) ->
  inRange (Z.of_nat (length (allImages p))) (currentImageIndex st) ->
  previousImage p (nextImage p st) = st /\
  nextImage p (previousImage p st) = st.
Proof.
  intros HN (i & Hi & Hr).
  set (N := Z.of_nat (length (allImages p))) in *.
  split.
  - unfold previousImage, nextImage.
    destruct st as [e idx f c g]; simpl in Hi; subst idx.
    unfold setCurrentImageIndex; cbn [currentImageIndex isExpanded isImageFullscreen countdown config].
    f_equal. unfold length_of; fold N; cbn [add rem].
    destruct (Z.eqb_spec N 0); [lia|].
    rewrite Z.rem_mod_nonneg by lia.
    cbn [strict_eq].
    destruct (Z.eqb_spec ((i + 1) mod N) 0) as [E | E]; cbn [sub]; f_equal.
    + destruct (Z.eq_dec (i + 1) N) as [F | F]; [lia|].
      rewrite Z.mod_small in E by lia; lia.
    + destruct (Z.eq_dec (i + 1) N) as [F | F].
      * rewrite F, Z.mod_same in E by lia; contradiction.
      * rewrite Z.mod_small by lia; lia.
  - unfold previousImage, nextImage.
    destruct st as [e idx f c g]; simpl in Hi; subst idx.
    unfold setCurrentImageIndex; cbn [currentImageIndex isExpanded isImageFullscreen countdown config].
    f_equal. unfold length_of; fold N; cbn [strict_eq].
    destruct (Z.eqb_spec i 0) as [E | E]; cbn [sub add rem];
      (destruct (Z.eqb_spec N 0); [lia|]); f_equal.
    + replace (N - 1 + 1) with N by lia. rewrite Z.rem_same by lia; lia.
    + replace (i - 1 + 1) with i by lia. apply Z.rem_small; lia.
Qed.

(** ** Scenarios *)

Module Scenarios.
Import Scenario.

(** Two days ahead: 2025-01-10 at 14:00, seen from 2025-01-08 at 14:00. *)
Lemma countdown_of_future_target_witness :
  countdown_after utc (props (Str "2025-01-10") (Str "14:00")) jan8_2pm mounted =
    {| days := 2; hrs := 0; mins := 0; secs := 0; isExpired := false |}.
Proof.
  exact (proj1 (proj2
    (countdown_of_future_target utc (props (Str "2025-01-10") (Str "14:00"))
       jan8_2pm mounted "14:00" 1736517600000
       eq_refl eq_refl eq_refl eq_refl eq_refl))).
Defined.

(** The very instant of the event is already expired. *)
Lemma countdown_of_past_target_witness :
  countdown_after utc (props (Str "2025-01-10") (Str "14:00")) 1736517600000 mounted =
    {| days := 0; hrs := 0; mins := 0; secs := 0; isExpired := true |}.
Proof.
  apply (countdown_of_past_target utc (props (Str "2025-01-10") (Str "14:00"))
           1736517600000 mounted "14:00" 1736517600000);
    [reflexivity | reflexivity | reflexivity | reflexivity | vm_compute; discriminate].
Defined.

(** A time without minutes: the second field is missing. *)
Lemma countdown_of_invalid_input_witness :
  fst (calculateTimeLeft utc (props (Str "2025-01-10") (Str "14")) jan8_2pm mounted)
    = Return tt /\
  countdown_after utc (props (Str "2025-01-10") (Str "14")) jan8_2pm mounted = expired.
Proof.
  apply (countdown_of_invalid_input utc (props (Str "2025-01-10") (Str "14"))
           jan8_2pm mounted).
  right; right; right; reflexivity.
Defined.

(** C3 as worded fails: "25:00" is no time of day, hours being above 23,
    yet the card counts down to 01:00 of the next day. *)
Lemma hour_25_counts_down :
  invalidInput utc (props (Str "2025-01-10") (Str "25:00")) = true /\
  countdown_after utc (props (Str "2025-01-10") (Str "25:00")) jan8_2pm mounted =
    {| days := 2; hrs := 11; mins := 0; secs := 0; isExpired := false |}.
Proof. split; reflexivity. Qed.

(** So do 75 minutes and a third field. *)
Example minute_75_counts_down :
  invalidInput utc (props (Str "2025-01-10") (Str "12:75")) = true /\
  countdown_after utc (props (Str "2025-01-10") (Str "12:75")) jan8_2pm mounted =
    {| days := 1; hrs := 23; mins := 15; secs := 0; isExpired := false |}.
Proof. split; reflexivity. Qed.

Example third_field_ignored :
  invalidInput utc (props (Str "2025-01-10") (Str "14:00:30")) = true /\
  countdown_after utc (props (Str "2025-01-10") (Str "14:00:30")) jan8_2pm mounted =
    {| days := 2; hrs := 0; mins := 0; secs := 0; isExpired := false |}.
Proof. split; reflexivity. Qed.

(** Two empty fields are two zeros: a lone colon is midnight. *)
Example lone_colon_is_midnight :
  countdown_after utc (props (Str "2025-01-10") (Str ":")) jan8_2pm mounted =
    {| days := 1; hrs := 10; mins := 0; secs := 0; isExpired := false |}.
Proof. reflexivity. Qed.

(** 3661 seconds ahead. *)
Example one_hour_one_minute_one_second :
  countdown_after utc (props (Str "2025-01-10") (Str "14:00"))
    (1736517600000 - 3661000) mounted =
    {| days := 0; hrs := 1; mins := 1; secs := 1; isExpired := false |}.
Proof. reflexivity. Qed.

(** The day of the target is the local day of the parsed date: west of
    Greenwich, midnight UTC falls on the evening before, and the same card
    at the same local time counts one day less. *)
Example west_of_greenwich :
  countdown_after utcMinus3 (props (Str "2025-01-10") (Str "14:00"))
    (jan8_2pm + 3 * msPerHour) mounted =
    {| days := 1; hrs := 0; mins := 0; secs := 0; isExpired := false |}.
Proof. reflexivity. Qed.

(** A date that does not parse is reported and expires. *)
Example unparseable_date :
  calculateTimeLeft utc (props (Str "not a date") (Str "14:00")) jan8_2pm mounted =
    (Return tt,
     {| card := setCountdownState expired initialState;
        console := [InvalidDate (Str "not a date") (Str "14:00")] |}).
Proof. reflexivity. Qed.

(** A time that arrives as the number 1400: the [try] block raises, the
    handler reports it and the card expires. *)
Example numeric_time_is_caught :
  fst (calculateTimeLeft_try utc (props (Str "2025-01-10") (Num (DFin (inject_Z 1400))))
         jan8_2pm mounted)
    = Throw (TypeError "eventTime.split is not a function") /\
  calculateTimeLeft utc (props (Str "2025-01-10") (Num (DFin (inject_Z 1400))))
    jan8_2pm mounted =
    (Return tt,
     {| card := setCountdownState expired initialState;
        console := [ErrorCalculatingCountdown
                      (TypeError "eventTime.split is not a function")] |}).
Proof. split; reflexivity. Qed.

(** Three images, from index 0. *)
Lemma advance_and_retreat_witness :
  map currentImageIndex
    [nextImage (gallery 3) initialState;
     nextImage (gallery 3) (nextImage (gallery 3) initialState);
     nextImage (gallery 3) (nextImage (gallery 3) (nextImage (gallery 3) initialState))]
    = [Int 1; Int 2; Int 0] /\
  currentImageIndex (previousImage (gallery 3) initialState) = Int 2.
Proof.
  apply (advance_and_retreat (gallery 3) initialState 0);
    [reflexivity | reflexivity | discriminate | reflexivity | reflexivity].
Defined.

Lemma navigation_stays_in_range_witness :
  inRange 3
    (currentImageIndex
       (navigateAll (gallery 3) [Retreat; Retreat; Advance; Advance; Advance; Advance]
          initialState)).
Proof.
  apply (navigation_stays_in_range (gallery 3)
           [Retreat; Retreat; Advance; Advance; Advance; Advance] initialState);
    [reflexivity | exists 0; split; [reflexivity | simpl; lia]].
Defined.

(** No image: once the configuration has arrived the card is rendered,
    without any navigation, and stays at index 0. *)
Lemma no_images_no_navigation_witness :
  rendersNavigation (gallery 0)
    (setIsImageFullscreen true (setConfig {| primary_color := "#ff0000" |} initialState))
    = false /\
  currentImageIndex
    (card (onCard (setConfig {| primary_color := "#ff0000" |}) mounted)) = Int 0.
Proof.
  destruct (no_images_no_navigation utc (gallery 0) eq_refl) as (Hr & _ & Hi).
  split; [apply Hr|].
  apply Hi, (reachable_step utc (gallery 0) mounted); [apply reachable_mount|].
  apply step_config.
Defined.

Lemma advance_retreat_inverse_witness :
  previousImage (gallery 3) (nextImage (gallery 3) initialState) = initialState /\
  nextImage (gallery 3) (previousImage (gallery 3) initialState) = initialState.
Proof.
  apply (advance_retreat_inverse (gallery 3) initialState);
    [reflexivity | exists 0; split; [reflexivity | simpl; lia]].
Defined.

(** One image: five advances and five retreats stay at 0. *)
Example single_image :
  currentImageIndex
    (navigateAll (gallery 1) [Advance; Advance; Advance; Advance; Advance] initialState)
    = Int 0 /\
  currentImageIndex
    (navigateAll (gallery 1) [Retreat; Retreat; Retreat; Retreat; Retreat] initialState)
    = Int 0.
Proof. split; reflexivity. Qed.

(** The handlers themselves carry no guard: run on an empty sequence, the
    advance would store NaN and the retreat -1, neither raising.  It is the
    render that keeps them from running. *)
Example handlers_without_images :
  currentImageIndex (nextImage (gallery 0) initialState) = NaN /\
  currentImageIndex (previousImage (gallery 0) initialState) = Int (-1).
Proof. split; reflexivity. Qed.

End Scenarios.

(** ** More on the countdown *)

Import Observe.

Lemma countdownState_fields c :
  {| days := days c; hrs := hrs c; mins := mins c; secs := secs c;
     isExpired := isExpired c |} = c.
Proof. destruct c; reflexivity. Qed.

(** The countdown after a tick on a truthy date and a time string. *)
Lemma countdown_after_string H p now w s :
  ToBoolean (eventDate p) = true -> ToBoolean (eventTime p) = true ->
  eventTime p = Str s ->
  countdown_after H p now w =
    match targetInstant H (eventDate p) (split ":" s) with
    | NaN => expired
    | Int t => if t - now <=? 0 then expired else decomposition (t - now)
    end.
Proof.
  intros Ed Et Es; unfold countdown_after.
  rewrite (calculateTimeLeft_string H p now w s Ed Et Es).
  destruct (targetInstant H (eventDate p) (split ":" s)) as [|t]; [reflexivity|].
  destruct (Z.leb_spec (t - now) 0) as [Hle | Hlt]; [reflexivity|].
  cbn [snd onCard card setCountdownState countdown].
  apply rem_decomposition; assumption.
Qed.

(** The countdown after a tick on anything else. *)
Lemma countdown_after_other H p now w :
  ToBoolean (eventDate p) = false \/ ToBoolean (eventTime p) = false \/
  (forall s, eventTime p <> Str s) ->
  countdown_after H p now w = expired.
Proof.
  unfold countdown_after.
  destruct (ToBoolean (eventDate p)) eqn:Ed;
    [destruct (ToBoolean (eventTime p)) eqn:Et|].
  - intros [F | [F | F]]; try discriminate.
    destruct (calculateTimeLeft_raises H p now w Ed Et F) as (e & _ & R).
    rewrite R; reflexivity.
  - intros _; rewrite (calculateTimeLeft_absent H p now w (or_intror Et)); reflexivity.
  - intros _; rewrite (calculateTimeLeft_absent H p now w (or_introl Ed)); reflexivity.
Qed.

(** The props of a card either fix a target instant or leave every tick
    expired. *)
Lemma countdown_after_target H p :
  (forall now w, countdown_after H p now w = expired) \/
  (exists s t,
     ToBoolean (eventDate p) = true /\ ToBoolean (eventTime p) = true /\
     eventTime p = Str s /\
     targetInstant H (eventDate p) (split ":" s) = Int t /\
     forall now w,
       countdown_after H p now w =
         if t - now <=? 0 then expired else decomposition (t - now)).
Proof.
  destruct (ToBoolean (eventDate p)) eqn:Ed;
    [destruct (ToBoolean (eventTime p)) eqn:Et|].
  - destruct (eventTime p) as [| |b|n|s] eqn:E.
    1-4: left; intros now w; apply countdown_after_other; right; right;
      rewrite E; discriminate.
    rewrite <- E in Et.
    destruct (targetInstant H (eventDate p) (split ":" s)) as [|t] eqn:T.
    + left; intros now w.
      rewrite (countdown_after_string H p now w s Ed Et E), T; reflexivity.
    + right; exists s, t; repeat split; try assumption.
      intros now w.
      rewrite (countdown_after_string H p now w s Ed Et E), T; reflexivity.
  - left; intros now w; apply countdown_after_other; right; left; assumption.
  - left; intros now w; apply countdown_after_other; left; assumption.
Qed.

Lemma decomposition_remaining d :
  0 < d -> remainingSeconds (decomposition d) = d / 1000.
Proof. intros Hd; unfold remainingSeconds; apply decomposition_seconds; assumption. Qed.

(** X1: a tick writes the countdown and nothing else of the card: the
    index, the two flags and the configuration stay.  It appends at most one
    console entry, and one only when the countdown it shows is the expired
    one. *)
Theorem tick_frame H p now w :
  exists log,
    calculateTimeLeft H p now w =
      (Return tt,
       {| card := setCountdownState (countdown_after H p now w) (card w);
          console := console w ++ log |}) /\
    (length log <= 1)%nat /\
    (log <> [] -> countdown_after H p now w = expired).
Proof.
  unfold countdown_after.
  destruct (ToBoolean (eventDate p)) eqn:Ed;
    [destruct (ToBoolean (eventTime p)) eqn:Et|].
  - destruct (eventTime p) as [| |b|n|s] eqn:E; rewrite <- E in Et.
    1-4: destruct (calculateTimeLeft_raises H p now w Ed Et) as (e & _ & R);
      [rewrite E; discriminate
      | rewrite R; exists [ErrorCalculatingCountdown e];
        split; [reflexivity | split; [simpl; lia | reflexivity]]].
    rewrite (calculateTimeLeft_string H p now w s Ed Et E).
    destruct (targetInstant H (eventDate p) (split ":" s)) as [|t].
    + exists [InvalidDate (eventDate p) (eventTime p)].
      split; [reflexivity | split; [simpl; lia | reflexivity]].
    + destruct (t - now <=? 0); exists []; rewrite app_nil_r;
        (split; [reflexivity | split; [simpl; lia | intros F; now contradiction F]]).
  - rewrite (calculateTimeLeft_absent H p now w (or_intror Et)).
    exists []; rewrite app_nil_r.
    split; [reflexivity | split; [simpl; lia | intros F; now contradiction F]].
  - rewrite (calculateTimeLeft_absent H p now w (or_introl Ed)).
    exists []; rewrite app_nil_r.
    split; [reflexivity | split; [simpl; lia | intros F; now contradiction F]].
Qed.

(** X2: the countdown a tick shows depends on the props, the host and the
    clock only, not on the card it finds; a second tick at the same clock
    changes nothing on the card. *)
Theorem tick_ignores_state H p now w w' :
  countdown_after H p now w = countdown_after H p now w' /\
  card (snd (calculateTimeLeft H p now (snd (calculateTimeLeft H p now w))))
    = card (snd (calculateTimeLeft H p now w)).
Proof.
  assert (I : forall v v', countdown_after H p now v = countdown_after H p now v').
  { intros v v'.
    destruct (countdown_after_target H p) as [E | (s & t & _ & _ & _ & _ & E)];
      rewrite (E now v), (E now v'); reflexivity. }
  split; [apply I|].
  destruct (tick_frame H p now w) as (log & R & _).
  destruct (tick_frame H p now (snd (calculateTimeLeft H p now w))) as (log' & R' & _).
  rewrite R'; cbn [snd card].
  rewrite (I _ w), R; cbn [snd card].
  destruct (card w); reflexivity.
Qed.

(** X3: a card counts down exactly when its date is truthy, its time is a
    non-empty string, the target instant built from them is a time value,
    and the clock is strictly before it. *)
Theorem running_iff_future_target H p now w :
  isExpired (countdown_after H p now w) = false <->
  exists s t,
    ToBoolean (eventDate p) = true /\ eventTime p = Str s /\ s <> "" /\
    targetInstant H (eventDate p) (split ":" s) = Int t /\ now < t.
Proof.
  split.
  - destruct (countdown_after_target H p) as [E | (s & t & Ed & Et & Es & T & E)];
      rewrite (E now w); [discriminate|].
    destruct (Z.leb_spec (t - now) 0); [discriminate|].
    intros _; exists s, t; repeat split; try assumption; [|lia].
    intros ->; rewrite Es in Et; discriminate.
  - intros (s & t & Ed & Es & Hs & T & Hlt).
    assert (Et : ToBoolean (eventTime p) = true).
    { rewrite Es; simpl. destruct (String.eqb_spec s ""); [contradiction | reflexivity]. }
    rewrite (countdown_after_string H p now w s Ed Et Es), T.
    destruct (Z.leb_spec (t - now) 0); [lia | reflexivity].
Qed.

(** X4: expiry is final.  Once a tick shows the expired state, every tick
    at the same or a later clock shows it too. *)
Theorem expiry_is_final H p now now' w w' :
  now <= now' ->
  isExpired (countdown_after H p now w) = true ->
  countdown_after H p now' w' = expired.
Proof.
  intros Hle.
  destruct (countdown_after_target H p) as [E | (s & t & _ & _ & _ & _ & E)];
    rewrite (E now w), (E now' w'); [reflexivity|].
  destruct (Z.leb_spec (t - now) 0); [|discriminate].
  destruct (Z.leb_spec (t - now') 0); [reflexivity | lia].
Qed.

(** X5: the time shown never grows while the clock advances: the seconds
    that a later tick shows are at most those of an earlier one, and never
    negative. *)
Theorem remaining_never_grows H p now now' w w' :
  now <= now' ->
  0 <= remainingSeconds (countdown_after H p now' w')
    <= remainingSeconds (countdown_after H p now w).
Proof.
  intros Hle.
  destruct (countdown_after_target H p) as [E | (s & t & _ & _ & _ & _ & E)];
    rewrite (E now w), (E now' w'); [vm_compute; split; discriminate|].
  destruct (Z.leb_spec (t - now') 0) as [L' | L'];
    destruct (Z.leb_spec (t - now) 0) as [L | L]; try lia.
  - vm_compute; split; discriminate.
  - rewrite decomposition_remaining by assumption.
    change (remainingSeconds expired) with 0.
    split; [lia | apply Z.div_pos; lia].
  - rewrite !decomposition_remaining by assumption.
    split; [apply Z.div_pos; lia | apply Z.div_le_mono; lia].
Qed.

(** X6: the last second.  With a target instant [t] ahead, the card shows
    four zeros without being expired exactly when less than a second is
    left. *)
Theorem last_second_shows_zeros H p now w s t :
  ToBoolean (eventDate p) = true ->
  ToBoolean (eventTime p) = true ->
  eventTime p = Str s ->
  targetInstant H (eventDate p) (split ":" s) = Int t ->
  (countdown_after H p now w =
     {| days := 0; hrs := 0; mins := 0; secs := 0; isExpired := false |}
   <-> 0 < t - now < 1000).
Proof.
  intros Ed Et Es T.
  rewrite (countdown_after_string H p now w s Ed Et Es), T.
  destruct (Z.leb_spec (t - now) 0) as [L | L].
  - split; [discriminate | lia].
  - split.
    + intros E.
      pose proof (decomposition_remaining (t - now) L) as R.
      rewrite E in R; unfold remainingSeconds in R; simpl in R.
      split; [assumption|].
      symmetry in R; apply Z.div_small_iff in R; lia.
    + intros [_ Hlt]; unfold decomposition.
      f_equal; Z.to_euclidean_division_equations; lia.
Qed.

(** ** Splitting a string *)

Lemma append_empty_r s : (s ++ "")%string = s.
Proof. induction s as [|c s IH]; simpl; [reflexivity | rewrite IH; reflexivity]. Qed.

Lemma append_assoc s1 s2 s3 : ((s1 ++ s2) ++ s3 = s1 ++ (s2 ++ s3))%string.
Proof. induction s1 as [|c s1 IH]; simpl; [reflexivity | rewrite IH; reflexivity]. Qed.

Lemma free_append sep s1 s2 :
  free sep (s1 ++ s2) = free sep s1 && free sep s2.
Proof.
  induction s1 as [|c s1 IH]; simpl; [reflexivity|].
  rewrite IH, andb_assoc; reflexivity.
Qed.

(** The field being read is the head of the result. *)
Lemma split_from_head sep s field :
  exists x xs,
    split_from sep s "" = x :: xs /\
    split_from sep s field = (field ++ x)%string :: xs.
Proof.
  revert field; induction s as [|c rest IH]; intros field; simpl.
  - exists "", []; rewrite append_empty_r; split; reflexivity.
  - destruct (Ascii.eqb c sep).
    + exists "", (split_from sep rest ""); rewrite append_empty_r; split; reflexivity.
    + destruct (IH (String c "")) as (x & xs & E0 & E1).
      destruct (IH (field ++ String c "")%string) as (y & ys & F0 & F1).
      rewrite E0 in F0; injection F0 as <- <-.
      exists (String c x), xs; split; [exact E1|].
      rewrite F1, append_assoc; reflexivity.
Qed.

Lemma split_from_join sep s field :
  join sep (split_from sep s field) = (field ++ s)%string.
Proof.
  revert field; induction s as [|c rest IH]; intros field; simpl.
  - unfold join; simpl; rewrite append_empty_r; reflexivity.
  - destruct (Ascii.eqb_spec c sep) as [-> | Hc].
    + unfold join in *; simpl.
      destruct (split_from sep rest "") as [|x xs] eqn:E;
        [exfalso; exact (split_from_nonempty _ _ _ E)|].
      rewrite <- E, IH; reflexivity.
    + rewrite IH, append_assoc; reflexivity.
Qed.

Lemma split_from_free sep s field :
  free sep field = true ->
  Forall (fun x => free sep x = true) (split_from sep s field).
Proof.
  revert field; induction s as [|c rest IH]; intros field Hf; simpl.
  - constructor; [assumption | constructor].
  - destruct (Ascii.eqb c sep) eqn:Ec.
    + constructor; [assumption | apply IH; reflexivity].
    + apply IH; rewrite free_append, Hf; simpl; rewrite Ec; reflexivity.
Qed.

Lemma split_from_length sep s field :
  length (split_from sep s field) = S (occurrences sep s).
Proof.
  revert field; induction s as [|c rest IH]; intros field; simpl; [reflexivity|].
  destruct (Ascii.eqb c sep); simpl; rewrite IH; reflexivity.
Qed.

(** A prefix without the separator is the first field. *)
Lemma split_from_prefix sep a rest field :
  free sep a = true ->
  split_from sep (a ++ String sep rest) field
    = (field ++ a)%string :: split_from sep rest "".
Proof.
  revert field; induction a as [|c a IH]; intros field Hf; simpl.
  - rewrite Ascii.eqb_refl, append_empty_r; reflexivity.
  - simpl in Hf; apply andb_prop in Hf as [Hc Ha].
    apply negb_true_iff in Hc; rewrite Hc.
    rewrite (IH _ Ha), append_assoc; reflexivity.
Qed.

Lemma split_from_whole sep a field :
  free sep a = true -> split_from sep a field = [(field ++ a)%string].
Proof.
  revert field; induction a as [|c a IH]; intros field Hf; simpl.
  - rewrite append_empty_r; reflexivity.
  - simpl in Hf; apply andb_prop in Hf as [Hc Ha].
    apply negb_true_iff in Hc; rewrite Hc.
    rewrite (IH _ Ha), append_assoc; reflexivity.
Qed.

(** X7: splitting loses nothing and invents nothing.  The fields of a
    string are one more than its separators, none contains the separator,
    and joined by the separator they give the string back. *)
Theorem split_join sep s :
  join sep (split sep s) = s /\
  length (split sep s) = S (occurrences sep s) /\
  Forall (fun x => free sep x = true) (split sep s).
Proof.
  unfold split; repeat split.
  - apply split_from_join.
  - apply split_from_length.
  - apply split_from_free; reflexivity.
Qed.

(** X8: joining and splitting again gives the fields back, as long as there
    is at least one field and none contains the separator. *)
Theorem join_split sep fields :
  fields <> [] ->
  Forall (fun x => free sep x = true) fields ->
  split sep (join sep fields) = fields.
Proof.
  intros Hne Hall; unfold split, join.
  induction Hall as [|x [|y ys] Hx Hys IH]; [contradiction Hne; reflexivity | |].
  - simpl; apply split_from_whole; assumption.
  - change (String.concat (String sep "") (x :: y :: ys))
      with (x ++ String sep (String.concat (String sep "") (y :: ys)))%string.
    rewrite split_from_prefix by assumption.
    rewrite IH by discriminate; reflexivity.
Qed.

(** X9: what follows the second colon of the time is never read.  A time
    whose fields are [a], [b] and more counts down exactly like the time
    [a:b]. *)
Theorem fields_after_second_ignored H p p' now w s a b rest :
  eventDate p' = eventDate p ->
  eventTime p = Str s ->
  split ":" s = a :: b :: rest ->
  eventTime p' = Str (a ++ ":" ++ b) ->
  countdown_after H p' now w = countdown_after H p now w.
Proof.
  intros Ed Es Hs Es'.
  assert (Hab : free ":" a = true /\ free ":" b = true).
  { pose proof (split_from_free ":" s "" eq_refl) as F.
    fold (split ":" s) in F; rewrite Hs in F.
    inversion F as [|? ? Fa F']; inversion F' as [|? ? Fb _]; split; assumption. }
  destruct Hab as [Fa Fb].
  assert (S' : split ":" (a ++ ":" ++ b) = [a; b]).
  { unfold split.
    change (a ++ ":" ++ b)%string with (a ++ String ":" b)%string.
    rewrite split_from_prefix, split_from_whole by assumption; reflexivity. }
  assert (Ne : s <> "") by (intros ->; discriminate Hs).
  assert (Et : ToBoolean (eventTime p) = true).
  { rewrite Es; simpl; destruct (String.eqb_spec s ""); [contradiction | reflexivity]. }
  assert (Et' : ToBoolean (eventTime p') = true).
  { rewrite Es'; simpl; destruct a; reflexivity. }
  destruct (ToBoolean (eventDate p)) eqn:D.
  - rewrite (countdown_after_string H p now w s D Et Es).
    rewrite <- Ed in D.
    rewrite (countdown_after_string H p' now w _ D Et' Es'), S', Hs, Ed.
    reflexivity.
  - rewrite (countdown_after_other H p now w (or_introl D)).
    rewrite <- Ed in D.
    apply countdown_after_other; left; assumption.
Qed.


(** ** The card as a whole *)

(** What a tick leaves of a card. *)
Lemma tick_card H p now w w' :
  calculateTimeLeft H p now w = (Return tt, w') ->
  exists c,
    card w' = setCountdownState c (card w) /\
    (c = expired \/ exists d, 0 < d /\ c = decomposition d).
Proof.
  intros R; destruct (calculateTimeLeft_cases H p now w) as (c & log & R' & Hc).
  rewrite R' in R; injection R as <-; exists c; split; [reflexivity | assumption].
Qed.

(** Each step, read on the card alone. *)
Lemma step_card H p w w' :
  step H p w w' ->
  (exists c, card w' = setCountdownState c (card w) /\
             (c = expired \/ exists d, 0 < d /\ c = decomposition d)) \/
  (exists c, card w' = setConfig c (card w)) \/
  (rendersCard (card w) = true /\
   card w' = setIsExpanded (negb (isExpanded (card w))) (card w)) \/
  (rendersImage p (card w) = true /\
   card w' = toggleImageFullscreen (card w) (card w)) \/
  (rendersNavigation p (card w) = true /\
   (card w' = previousImage p (card w) \/ card w' = nextImage p (card w))).
Proof.
  intros S; destruct S as [now w w' R | c w | w Hr | w Hr | w Hr | w Hr | w Hr].
  - left; exact (tick_card H p now w w' R).
  - right; left; exists c; reflexivity.
  - right; right; left; split; [assumption | reflexivity].
  - right; right; right; left; split; [assumption | reflexivity].
  - right; right; right; left; split; [|reflexivity].
    unfold rendersOverlay in Hr; unfold rendersImage.
    apply andb_prop in Hr as [Hc Hr]; apply andb_prop in Hr as [_ Hn].
    rewrite Hc, Hn; reflexivity.
  - right; right; right; right; split; [assumption | now left].
  - right; right; right; right; split; [assumption | now right].
Qed.

Lemma rendersNavigation_many p st :
  rendersNavigation p st = true -> 1 < Z.of_nat (length (allImages p)).
Proof.
  unfold rendersNavigation, hasMultipleImages; intros E.
  apply andb_prop in E as [_ E]; apply Z.ltb_lt; assumption.
Qed.

Lemma rendersImage_some p st :
  rendersImage p st = true ->
  rendersCard st = true /\ 0 < Z.of_nat (length (allImages p)).
Proof.
  unfold rendersImage; intros E.
  apply andb_prop in E as [Hc E]; split; [assumption | apply Z.ltb_lt; assumption].
Qed.

Lemma at_index_inRange l i :
  inRange (Z.of_nat (length l)) i ->
  exists x, at_index l i = Some x /\ In x l.
Proof.
  intros (j & -> & Hj); unfold at_index.
  destruct (Z.ltb_spec j 0); [lia|].
  destruct (nth_error l (Z.to_nat j)) as [x|] eqn:E.
  - exists x; split; [reflexivity | eapply nth_error_In; exact E].
  - apply nth_error_None in E; lia.
Qed.

(** X11: the image on show always exists.  On every card that a sequence of
    events can produce from a mount with at least one image, the index is
    a position of the sequence, [allImages[currentImageIndex]] is one of its
    images, and the position shown in the overlay runs from 1 to the
    number of images. *)
Theorem shown_image_exists H p w :
  0 < Z.of_nat (length (allImages p)) ->
  reachable H p w ->
  inRange (Z.of_nat (length (allImages p))) (currentImageIndex (card w)) /\
  (exists x, at_index (allImages p) (currentImageIndex (card w)) = Some x /\
             In x (allImages p)) /\
  (exists k, shownPosition (card w) = Int k /\
             1 <= k <= Z.of_nat (length (allImages p))).
Proof.
  intros HN R.
  assert (I : inRange (Z.of_nat (length (allImages p))) (currentImageIndex (card w))).
  { induction R as [|w w' _ IH S].
    - exists 0; split; [reflexivity | lia].
    - destruct (step_card H p w w' S)
        as [(c & -> & _) | [(c & ->) | [(_ & ->) | [(_ & ->) | (_ & [-> | ->])]]]];
        try exact IH;
        [apply previousImage_inRange | apply nextImage_inRange]; exact IH. }
  split; [exact I|]; split; [apply at_index_inRange; exact I|].
  destruct I as (j & Ej & Hj); exists (j + 1); unfold shownPosition.
  rewrite Ej; split; [reflexivity | lia].
Qed.

(** X12: a card with at most one image never moves: whatever happens to
    it, its index is the initial 0. *)
Theorem few_images_index_fixed H p w :
  Z.of_nat (length (allImages p)) <= 1 ->
  reachable H p w ->
  currentImageIndex (card w) = Int 0.
Proof.
  intros HN R; induction R as [|w w' _ IH S]; [reflexivity|].
  destruct (step_card H p w w' S)
    as [(c & -> & _) | [(c & ->) | [(_ & ->) | [(_ & ->) | (Hr & _)]]]];
    try exact IH.
  apply rendersNavigation_many in Hr; lia.
Qed.

(** X13: a card without images never goes fullscreen. *)
Theorem no_images_never_fullscreen H p w :
  length (allImages p) = 0%nat ->
  reachable H p w ->
  isImageFullscreen (card w) = false.
Proof.
  intros HN R; induction R as [|w w' _ IH S]; [reflexivity|].
  destruct (step_card H p w w' S)
    as [(c & -> & _) | [(c & ->) | [(_ & ->) | [(Hr & _) | (_ & [-> | ->])]]]];
    try exact IH.
  apply rendersImage_some in Hr as [_ Hr]; rewrite HN in Hr; simpl in Hr; lia.
Qed.

(** X14: nothing can be clicked before the configuration has arrived, and
    a configuration that has arrived stays.  While a card has none, it is
    collapsed, not fullscreen and at index 0; a step from a configured card
    leads to a configured card. *)
Theorem nothing_before_config H p :
  (forall w, reachable H p w -> config (card w) = None ->
     isExpanded (card w) = false /\
     isImageFullscreen (card w) = false /\
     currentImageIndex (card w) = Int 0) /\
  (forall w w', step H p w w' -> rendersCard (card w) = true ->
     rendersCard (card w') = true).
Proof.
  split.
  - intros w R; induction R as [|w w' _ IH S]; [repeat split|].
    destruct (step_card H p w w' S)
      as [(c & -> & _) | [(c & ->) | [(Hr & ->) | [(Hr & ->) | (Hr & [-> | ->])]]]];
      simpl; try exact IH; try discriminate; intros Hc.
    + unfold rendersCard in Hr; rewrite Hc in Hr; discriminate.
    + apply rendersImage_some in Hr as [Hr _].
      unfold rendersCard in Hr; rewrite Hc in Hr; discriminate.
    + unfold rendersNavigation, rendersOverlay, rendersCard in Hr.
      rewrite Hc in Hr; discriminate.
    + unfold rendersNavigation, rendersOverlay, rendersCard in Hr.
      rewrite Hc in Hr; discriminate.
  - intros w w' S Hr.
    destruct (step_card H p w w' S)
      as [(c & -> & _) | [(c & ->) | [(_ & ->) | [(_ & ->) | (_ & [-> | ->])]]]];
      try exact Hr; reflexivity.
Qed.

(** X15: whatever happens to a card, the countdown it holds is well
    formed: from the mount on, days are not negative, hours are below 24,
    minutes and seconds below 60. *)
Theorem reachable_countdown_well_formed H p w :
  reachable H p w -> well_formed (countdown (card w)).
Proof.
  intros R; induction R as [|w w' _ IH S].
  - unfold well_formed; simpl; repeat split; try lia; discriminate.
  - destruct (step_card H p w w' S)
      as [(c & -> & Hc) | [(c & ->) | [(_ & ->) | [(_ & ->) | (_ & [-> | ->])]]]];
      try exact IH.
    simpl; destruct Hc as [-> | (d & Hd & ->)];
      [apply expired_well_formed | apply decomposition_well_formed; assumption].
Qed.

(** X16: two toggles.  Fired from two successive renders they restore the
    card; fired from one and the same render, the second changes nothing,
    as both write the negation of the flag of that render. *)
Theorem toggle_twice st :
  toggleImageFullscreen (toggleImageFullscreen st st) (toggleImageFullscreen st st) = st /\
  toggleImageFullscreen st (toggleImageFullscreen st st) = toggleImageFullscreen st st.
Proof.
  destruct st as [e i f c g]; unfold toggleImageFullscreen, setIsImageFullscreen; simpl.
  rewrite negb_involutive; split; reflexivity.
Qed.

Lemma navigate_frame p n st :
  isExpanded (navigate p st n) = isExpanded st /\
  isImageFullscreen (navigate p st n) = isImageFullscreen st /\
  countdown (navigate p st n) = countdown st /\
  config (navigate p st n) = config st.
Proof. destruct n; repeat split. Qed.

Lemma retreat_mod N i :
  0 <= i < N -> (if i =? 0 then N - 1 else i - 1) = (i - 1) mod N.
Proof.
  intros Hi; destruct (Z.eqb_spec i 0) as [-> | Hn].
  - change (0 - 1) with (-1).
    replace (-1) with (N - 1 + (-1) * N) by lia.
    rewrite Z.mod_add by lia. rewrite Z.mod_small; lia.
  - rewrite Z.mod_small; lia.
Qed.

(** X17: navigation is addition modulo the number of images.  From index
    [i] of [N > 0] images, a run of advances and retreats ends at
    [(i + advances - retreats) mod N], in whatever order they come. *)
Theorem navigation_is_addition p ns st i :
  0 <= i < Z.of_nat (length (allImages p)) ->
  currentImageIndex st = Int i ->
  currentImageIndex (navigateAll p ns st)
    = Int ((i + displacement ns) mod Z.of_nat (length (allImages p))).
Proof.
  unfold navigateAll; revert st i.
  induction ns as [|n ns IH]; intros st i Hi Ei; simpl.
  - rewrite Z.add_0_r, Z.mod_small by lia; exact Ei.
  - destruct n; simpl.
    + rewrite (IH (nextImage p st) ((i + 1) mod Z.of_nat (length (allImages p)))).
      * rewrite Z.add_mod_idemp_l by lia; f_equal; f_equal; lia.
      * apply Z.mod_pos_bound; lia.
      * rewrite (nextImage_index p st i) by (lia || assumption).
        rewrite Z.rem_mod_nonneg by lia; reflexivity.
    + rewrite (IH (previousImage p st) ((i - 1) mod Z.of_nat (length (allImages p)))).
      * rewrite Z.add_mod_idemp_l by lia; f_equal; f_equal; lia.
      * apply Z.mod_pos_bound; lia.
      * rewrite (previousImage_index p st i Ei), retreat_mod by lia; reflexivity.
Qed.

Lemma navigateAll_frame p ns st :
  isExpanded (navigateAll p ns st) = isExpanded st /\
  isImageFullscreen (navigateAll p ns st) = isImageFullscreen st /\
  countdown (navigateAll p ns st) = countdown st /\
  config (navigateAll p ns st) = config st.
Proof.
  unfold navigateAll; revert st; induction ns as [|n ns IH]; intros st; simpl;
    [repeat split|].
  destruct (IH (navigate p st n)) as (A & B & C & D).
  destruct (navigate_frame p n st) as (A' & B' & C' & D').
  rewrite A, B, C, D; repeat split; assumption.
Qed.

Lemma displacement_repeat n k :
  displacement (repeat n k)
    = match n with Advance => Z.of_nat k | Retreat => - Z.of_nat k end.
Proof.
  induction k as [|k IH]; [destruct n; reflexivity|].
  cbn [repeat displacement fold_right]; fold (displacement (repeat n k)).
  rewrite IH; destruct n; lia.
Qed.

(** X18: a full round.  As many advances as there are images, or as many
    retreats, bring a card back to the very state it was in. *)
Theorem full_round p st :
  inRange (Z.of_nat (length (allImages p))) (currentImageIndex st) ->
  navigateAll p (repeat Advance (length (allImages p))) st = st /\
  navigateAll p (repeat Retreat (length (allImages p))) st = st.
Proof.
  intros (i & Ei & Hi).
  assert (B : forall n, navigateAll p (repeat n (length (allImages p))) st = st).
  { intros n.
    pose proof (navigation_is_addition p (repeat n (length (allImages p))) st i Hi Ei) as E.
    destruct (navigateAll_frame p (repeat n (length (allImages p))) st) as (A & F & C & D).
    assert (E' : currentImageIndex (navigateAll p (repeat n (length (allImages p))) st)
                 = currentImageIndex st).
    { rewrite E, Ei, displacement_repeat; f_equal; destruct n.
      - replace (i + Z.of_nat (length (allImages p)))
          with (i + 1 * Z.of_nat (length (allImages p))) by lia.
        rewrite Z.mod_add by lia; apply Z.mod_small; lia.
      - replace (i + - Z.of_nat (length (allImages p)))
          with (i + (-1) * Z.of_nat (length (allImages p))) by lia.
        rewrite Z.mod_add by lia; apply Z.mod_small; lia. }
    destruct (navigateAll p (repeat n (length (allImages p))) st), st; simpl in *.
    congruence. }
  split; apply B.
Qed.

(** ** What the card renders *)

Import Render.

Lemma length_append s1 s2 :
  String.length (s1 ++ s2) = (String.length s1 + String.length s2)%nat.
Proof. induction s1 as [|c s1 IH]; simpl; [reflexivity | rewrite IH; reflexivity]. Qed.

Lemma append_cancel_r s1 s2 t : (s1 ++ t = s2 ++ t)%string -> s1 = s2.
Proof.
  revert s2; induction s1 as [|c s1 IH]; intros [|c' s2] E; simpl in E.
  - reflexivity.
  - apply (f_equal String.length) in E; simpl in E; rewrite length_append in E; lia.
  - apply (f_equal String.length) in E; simpl in E; rewrite length_append in E; lia.
  - injection E as -> E; rewrite (IH s2 E); reflexivity.
Qed.

Lemma to_int_proper z :
  Z.to_int z <> Decimal.Pos Decimal.Nil /\ Z.to_int z <> Decimal.Neg Decimal.Nil.
Proof.
  destruct z as [|q|q]; simpl; split; try discriminate; intros E; injection E as E;
    exact (DecimalPos.Unsigned.to_uint_nonnil q E).
Qed.

Lemma String_of_inj z1 z2 : String_of z1 = String_of z2 -> z1 = z2.
Proof.
  unfold String_of; intros E.
  apply (f_equal NilZero.int_of_string) in E.
  destruct (to_int_proper z1) as [A1 B1], (to_int_proper z2) as [A2 B2].
  rewrite !NilZero.isi in E by assumption.
  injection E as E; apply (f_equal Z.of_int) in E.
  rewrite !DecimalZ.of_to in E; exact E.
Qed.

(** The numbers below 60, one by one. *)
Lemma below_60 (P : Z -> Prop) :
  Forall P (map Z.of_nat (seq 0 60)) -> forall z, 0 <= z <= 59 -> P z.
Proof.
  intros F z Hz; rewrite Forall_forall in F; apply F.
  rewrite <- (Z2Nat.id z) by lia.
  apply in_map, in_seq; lia.
Qed.

Lemma padded_two_digits z :
  0 <= z <= 59 ->
  twoDigits (padStart 2 "0" (String_of z)) = true /\
  Scenario.decimal (padStart 2 "0" (String_of z)) = Some z.
Proof.
  revert z; apply below_60.
  repeat (constructor; [split; vm_compute; reflexivity|]); constructor.
Qed.

Lemma padded_inj z1 z2 u :
  0 <= z1 <= 59 -> 0 <= z2 <= 59 ->
  (padStart 2 "0" (String_of z1) ++ u = padStart 2 "0" (String_of z2) ++ u)%string ->
  z1 = z2.
Proof.
  intros H1 H2 E; apply append_cancel_r in E.
  destruct (padded_two_digits z1 H1) as [_ D1], (padded_two_digits z2 H2) as [_ D2].
  rewrite E in D1; rewrite D1 in D2; injection D2 as D2; exact D2.
Qed.

(** X19: the countdown can be read off the card.  A well-formed state that
    is not expired is drawn as four badges, the hours, minutes and seconds
    each as exactly two decimal digits that say the number, the days (below
    1e21, where [String] still writes all digits) in decimal; and two such
    states that are drawn alike are the same state. *)
Theorem countdown_is_readable c :
  well_formed c ->
  days c < 10 ^ 21 ->
  (isExpired c = false ->
   exists d h m s,
     countdownView c = Badges (d ++ "d") (h ++ "h") (m ++ "m") (s ++ "s") /\
     d = String_of (days c) /\
     twoDigits h = true /\ Scenario.decimal h = Some (hrs c) /\
     twoDigits m = true /\ Scenario.decimal m = Some (mins c) /\
     twoDigits s = true /\ Scenario.decimal s = Some (secs c)) /\
  (forall c', well_formed c' -> days c' < 10 ^ 21 ->
     countdownView c' = countdownView c -> c' = c).
Proof.
  intros (Hd & Hh & Hm & Hs & He) _; split.
  - intros E; unfold countdownView; rewrite E.
    destruct (padded_two_digits (hrs c)) as [? ?]; [lia|].
    destruct (padded_two_digits (mins c)) as [? ?]; [lia|].
    destruct (padded_two_digits (secs c)) as [? ?]; [lia|].
    do 4 eexists; split; [reflexivity|]; repeat split; assumption.
  - intros c' (Hd' & Hh' & Hm' & Hs' & He') _; unfold countdownView.
    destruct c as [d h m s e], c' as [d' h' m' s' e']; simpl in *.
    destruct e, e'; try discriminate.
    + intros _.
      destruct (He eq_refl) as (-> & -> & -> & ->).
      destruct (He' eq_refl) as (-> & -> & -> & ->); reflexivity.
    + intros E; injection E as Ed Eh Em Es.
      apply append_cancel_r, String_of_inj in Ed.
      apply padded_inj in Eh; [|lia..].
      apply padded_inj in Em; [|lia..].
      apply padded_inj in Es; [|lia..].
      subst; reflexivity.
Qed.

(** *** The paragraphs *)

Lemma trimStart_nil s : trimStart s = [] <-> forallb isWhiteSpace s = true.
Proof.
  induction s as [|c s IH]; simpl; [tauto|].
  destruct (isWhiteSpace c); simpl; [exact IH | split; discriminate].
Qed.

Lemma trimStart_ink s c :
  isWhiteSpace c = false -> trimStart (s ++ [c]) <> [].
Proof.
  intros Hc; induction s as [|a s IH]; simpl.
  - rewrite Hc; discriminate.
  - destruct (isWhiteSpace a); [exact IH | discriminate].
Qed.

Lemma trimStart_head s : 
  trimStart s = [] \/ exists c rest, trimStart s = c :: rest /\ isWhiteSpace c = false.
Proof.
  induction s as [|a s IH]; simpl; [now left|].
  destruct (isWhiteSpace a) eqn:E; [exact IH|].
  right; exists a, s; split; [reflexivity | assumption].
Qed.

Lemma string_of_list_ascii_nil l : string_of_list_ascii l = "" <-> l = [].
Proof. destruct l; simpl; split; congruence. Qed.

(** A string trims to nothing exactly when it is all white space. *)
Lemma trim_empty s : ToBoolean (Str (trim s)) = hasInk s.
Proof.
  unfold hasInk; simpl.
  destruct (forallb isWhiteSpace (list_ascii_of_string s)) eqn:F.
  - assert (E : trim s = "").
    { unfold trim. apply trimStart_nil in F; rewrite F; reflexivity. }
    rewrite E; simpl; symmetry.
    apply not_true_is_false; intros X; apply existsb_exists in X as (c & Hin & Hc).
    rewrite forallb_forall in F; rewrite (F c Hin) in Hc; discriminate.
  - assert (N : trim s <> "").
    { unfold trim, trimEnd; intros E; apply string_of_list_ascii_nil in E.
      destruct (trimStart_head (list_ascii_of_string s)) as [T | (c & rest & T & Hc)].
      - apply trimStart_nil in T; congruence.
      - rewrite T in E; simpl in E.
        apply (f_equal (@rev ascii)) in E; rewrite rev_involutive in E; simpl in E.
        exact (trimStart_ink (rev rest) c Hc E). }
    destruct (String.eqb_spec (trim s) ""); [contradiction|]; simpl; symmetry.
    apply existsb_exists.
    assert (X : exists c, In c (list_ascii_of_string s) /\ isWhiteSpace c = false).
    { clear N; induction (list_ascii_of_string s) as [|a l IH]; [discriminate|].
      simpl in F; destruct (isWhiteSpace a) eqn:A.
      - destruct (IH F) as (c & Hin & Hc); exists c; split; [now right | assumption].
      - exists a; split; [now left | assumption]. }
    destruct X as (c & Hin & Hc); exists c; rewrite Hc; split; [assumption | reflexivity].
Qed.

Lemma drawn_paragraphsFrom index lines k t :
  In (k, t) (drawn (paragraphsFrom index lines)) <->
  (index <= k)%nat /\ nth_error lines (k - index) = Some t /\ hasInk t = true.
Proof.
  revert index; induction lines as [|l lines IH]; intros index; cbn [paragraphsFrom].
  - simpl; split; [contradiction|].
    intros (_ & E & _); destruct (k - index)%nat; discriminate.
  - rewrite trim_empty.
    assert (R : In (k, t) (drawn (paragraphsFrom (S index) lines)) <->
                (index < k)%nat /\ nth_error lines (k - S index) = Some t /\ hasInk t = true).
    { rewrite IH; split; intros (A & B & C); repeat split; assumption || lia. }
    destruct (hasInk l) eqn:Hl; cbn [drawn In]; rewrite R; clear R IH.
    + split.
      * intros [E | (A & B & C)].
        -- injection E as <- <-; rewrite Nat.sub_diag; repeat split; [lia | assumption].
        -- replace (k - index)%nat with (S (k - S index)) by lia.
           repeat split; [lia | assumption | assumption].
      * intros (A & B & C).
        destruct (Nat.eq_dec k index) as [-> | Hne].
        -- rewrite Nat.sub_diag in B; injection B as <-; left; reflexivity.
        -- right; replace (k - index)%nat with (S (k - S index)) in B by lia.
           repeat split; [lia | assumption | assumption].
    + split.
      * intros (A & B & C).
        replace (k - index)%nat with (S (k - S index)) by lia.
        repeat split; [lia | assumption | assumption].
      * intros (A & B & C).
        destruct (Nat.eq_dec k index) as [-> | Hne].
        -- rewrite Nat.sub_diag in B; injection B as <-; congruence.
        -- replace (k - index)%nat with (S (k - S index)) in B by lia.
           repeat split; [lia | assumption | assumption].
Qed.

Lemma drawn_paragraphsFrom_texts index lines :
  map snd (drawn (paragraphsFrom index lines)) = filter hasInk lines.
Proof.
  revert index; induction lines as [|l lines IH]; intros index;
    cbn [paragraphsFrom]; [reflexivity|].
  rewrite trim_empty; cbn [filter]; destruct (hasInk l); cbn [drawn map snd];
    rewrite IH; reflexivity.
Qed.

Lemma drawn_paragraphsFrom_keys index lines :
  StronglySorted lt (map fst (drawn (paragraphsFrom index lines))) /\
  Forall (fun k => (index <= k)%nat) (map fst (drawn (paragraphsFrom index lines))).
Proof.
  revert index; induction lines as [|l lines IH]; intros index; cbn [paragraphsFrom].
  - split; constructor.
  - destruct (IH (S index)) as [Sorted F].
    assert (F' : Forall (fun k => (index < k)%nat)
                   (map fst (drawn (paragraphsFrom (S index) lines)))).
    { eapply Forall_impl; [|exact F]; simpl; intros; lia. }
    destruct (ToBoolean (Str (trim l))); cbn [drawn map fst].
    + split; constructor; try assumption; [lia|].
      eapply Forall_impl; [|exact F']; simpl; intros; lia.
    + split; [assumption|].
      eapply Forall_impl; [|exact F']; simpl; intros; lia.
Qed.

(** X20: the paragraphs drawn are the lines of the description that hold a
    character other than white space: each keeps its text untrimmed and
    is keyed by its line number, so the keys grow strictly and no
    paragraph holds a line feed; their texts are those lines in order. *)
Theorem paragraphs_are_inked_lines description :
  (forall k t,
     In (k, t) (drawn (paragraphs description)) <->
     nth_error (split lineFeed description) k = Some t /\ hasInk t = true) /\
  map snd (drawn (paragraphs description)) = filter hasInk (split lineFeed description) /\
  StronglySorted lt (map fst (drawn (paragraphs description))) /\
  Forall (fun t => free lineFeed t = true) (map snd (drawn (paragraphs description))).
Proof.
  unfold paragraphs; split; [|split; [|split]].
  - intros k t; rewrite drawn_paragraphsFrom, Nat.sub_0_r.
    split; [intros (_ & E & I) | intros (E & I)]; repeat split; assumption || lia.
  - apply drawn_paragraphsFrom_texts.
  - apply drawn_paragraphsFrom_keys.
  - rewrite drawn_paragraphsFrom_texts.
    apply incl_Forall with (l1 := split lineFeed description);
      [intros x Hx; apply filter_In in Hx; tauto|].
    apply split_from_free; reflexivity.
Qed.

(** ** The life of the timer *)

Import Lifecycle.

(** A tick reads the date and the time of the props and nothing else. *)
Lemma calculateTimeLeft_ext H p p' now w :
  eventDate p = eventDate p' -> eventTime p = eventTime p' ->
  calculateTimeLeft H p now w = calculateTimeLeft H p' now w.
Proof.
  intros Ed Et; unfold calculateTimeLeft, calculateTimeLeft_try.
  rewrite Ed, Et; reflexivity.
Qed.

Lemma remove_fresh h l : ~ In h l -> remove Nat.eq_dec h (h :: l) = l.
Proof.
  intros Hn; simpl; destruct (Nat.eq_dec h h); [|contradiction].
  apply notin_remove; assumption.
Qed.

Lemma tidy_effect H others p now w k :
  running k = others ->
  Forall (fun h => (h < nextHandle k)%nat) (running k) ->
  tidy others
    {| instance := Mounted p p (fst (fst (effect H p now w k)));
       world := snd (fst (effect H p now w k));
       timers := snd (effect H p now w k) |}.
Proof.
  intros R F; unfold tidy, effect; simpl; rewrite R in *.
  repeat split.
  - constructor; [lia|].
    eapply Forall_impl; [|exact F]; simpl; intros; lia.
  - intros I; rewrite Forall_forall in F; specialize (F _ I); lia.
Qed.

Lemma lifecycle_tidy H others pg pg' :
  tidy others pg -> lifecycle H pg pg' -> tidy others pg'.
Proof.
  intros (R & F & I) L; destruct L; cbn [instance timers world held app] in R, F, I.
  - apply tidy_effect; assumption.
  - destruct I as (Hn & _ & _).
    apply tidy_effect; cbn [cleanup clearInterval running nextHandle]; rewrite R.
    + apply remove_fresh; assumption.
    + rewrite remove_fresh by assumption.
      rewrite R in F; inversion F; assumption.
  - destruct I as (Hn & Ed & Et).
    unfold tidy; cbn [instance timers world held app].
    repeat split; try assumption; congruence.
  - unfold tidy; cbn [instance timers world held app].
    repeat split; try assumption; tauto.
  - destruct I as (Hn & _ & _).
    unfold tidy; cbn [instance timers world held app cleanup clearInterval running nextHandle].
    rewrite R, remove_fresh by assumption.
    repeat split.
    rewrite R in F; inversion F; assumption.
Qed.

Lemma lives_tidy H others pg pg' :
  tidy others pg -> lives H pg pg' -> tidy others pg'.
Proof.
  intros T L; induction L as [|pg pg' pg'' _ IH S]; [assumption|].
  eapply lifecycle_tidy; [apply IH; assumption | exact S].
Qed.

(** X21: one interval, and none left behind.  Through any sequence of
    mounts, re-renders, ticks and unmounts, starting from an unmounted
    card, the intervals running are those that ran before plus exactly one
    for the card while it is mounted, and exactly those that ran before
    once it is unmounted. *)
Theorem one_interval_none_left H pg pg' :
  instance pg = Unmounted ->
  Forall (fun h => (h < nextHandle (timers pg))%nat) (running (timers pg)) ->
  lives H pg pg' ->
  running (timers pg') = (held (instance pg') ++ running (timers pg))%list /\
  (forall timer, In timer (held (instance pg')) -> ~ In timer (running (timers pg))).
Proof.
  intros U F L.
  assert (T : tidy (running (timers pg)) pg).
  { unfold tidy; rewrite U; simpl; repeat split; assumption. }
  destruct (lives_tidy H _ pg pg' T L) as (R & _ & I).
  split; [exact R|].
  intros timer Hin; destruct (instance pg') as [|cur clo t]; simpl in Hin;
    [contradiction|].
  destruct Hin as [<- | []]; tauto.
Qed.

(** X22: the interval never works on a stale date or time.  Through any
    such sequence, the props that the callback of a mounted card closes
    over have the date and the time of its current props, so each tick of
    the interval sets the countdown of the current props. *)
Theorem callback_never_stale H pg pg' current closure timer :
  instance pg = Unmounted ->
  Forall (fun h => (h < nextHandle (timers pg))%nat) (running (timers pg)) ->
  lives H pg pg' ->
  instance pg' = Mounted current closure timer ->
  eventDate closure = eventDate current /\
  eventTime closure = eventTime current /\
  forall now w,
    calculateTimeLeft H closure now w = calculateTimeLeft H current now w.
Proof.
  intros U F L M.
  assert (T : tidy (running (timers pg)) pg).
  { unfold tidy; rewrite U; simpl; repeat split; assumption. }
  destruct (lives_tidy H _ pg pg' T L) as (_ & _ & I).
  rewrite M in I; destruct I as (_ & Ed & Et).
  repeat split; try assumption.
  intros now w; apply calculateTimeLeft_ext; assumption.
Qed.

(** ** The news page *)

(** X23: the cache key is faithful to the query.  Two pairs of search term
    and category give the same query exactly when they give the same key:
    an answer is never filed under the key of another query, and the same
    query is never asked under two keys. *)
Theorem query_key_faithful s c s' c' :
  News.newsQuery s c = News.newsQuery s' c' <-> News.queryKey s c = News.queryKey s' c'.
Proof.
  split.
  - unfold News.newsQuery, News.queryKey; simpl.
    destruct (String.eqb_spec s ""), (String.eqb_spec s' ""),
             (String.eqb_spec c ""), (String.eqb_spec c' "");
      subst; simpl; intros E; try discriminate E; try reflexivity;
      injection E; intros; subst;
      repeat match goal with
             | X : String _ (_ ++ _)%string = String _ (_ ++ _)%string |- _ =>
                 injection X as X; apply append_cancel_r in X; subst
             | X : (_ ++ "%")%string = (_ ++ "%")%string |- _ =>
                 apply append_cancel_r in X; subst
             end; try reflexivity; try congruence.
  - intros E; injection E as -> ->; reflexivity.
Qed.

(** X24: what the cache gets.  The news query resolves exactly when the
    backend answers without an error, and then to a list, empty when the
    data is null; otherwise it rejects with the very error of the backend.
    A success writes nothing with [console.error]; an error in the answer
    is written twice, a thrown one once. *)
Theorem queryFn_settles (Row Error : Type)
    (await : News.Query -> News.settled Error (News.Response Row Error))
    s c console :
  match await (News.newsQuery s c) with
  | News.Resolved r =>
      match News.error r with
      | None =>
          fst (News.queryFn await s c console)
            = News.Resolved (match News.data r with Some rows => rows | None => [] end) /\
          filter News.isError (snd (News.queryFn await s c console))
            = filter News.isError console
      | Some e =>
          fst (News.queryFn await s c console) = News.Rejected e /\
          filter News.isError (snd (News.queryFn await s c console))
            = (filter News.isError console
               ++ [News.error_query e; News.error_fetching e])%list
      end
  | News.Rejected e =>
      fst (News.queryFn await s c console) = News.Rejected e /\
      filter News.isError (snd (News.queryFn await s c console))
        = (filter News.isError console ++ [News.error_fetching e])%list
  end.
Proof.
  unfold News.queryFn, News.andThen, News.tryCatch, News.awaiting, News.write; simpl.
  destruct (await (News.newsQuery s c)) as [r | e]; simpl.
  - destruct (News.error r) as [e|]; simpl;
      rewrite ?filter_app; simpl; rewrite ?app_nil_r, <- ?app_assoc; split; reflexivity.
  - rewrite ?filter_app; simpl; rewrite ?app_nil_r; split; reflexivity.
Qed.

(** ** More scenarios *)

Module MoreScenarios.
Import Scenario Stage.

Lemma reachable_configured H p : reachable H p configured.
Proof.
  apply (reachable_step H p mounted); [apply reachable_mount | apply step_config].
Qed.

Lemma reachable_fullscreen H n : reachable H (gallery (S n)) fullscreen.
Proof.
  apply (reachable_step H _ configured); [apply reachable_configured|].
  apply step_click_image; reflexivity.
Qed.

Lemma reachable_onSecondImage H : reachable H (gallery 3) onSecondImage.
Proof.
  apply (reachable_step H _ fullscreen); [apply reachable_fullscreen|].
  apply step_next; reflexivity.
Qed.

Lemma reachable_ticked : reachable utc event ticked.
Proof.
  apply (reachable_step utc _ configured); [apply reachable_configured|].
  apply (step_tick utc event jan8_2pm); reflexivity.
Qed.

(** Expired at the instant of the event, expired a second later. *)
Lemma expiry_is_final_witness :
  countdown_after utc event (eventInstant + 1000) mounted = expired.
Proof.
  apply (expiry_is_final utc event eventInstant (eventInstant + 1000) mounted mounted);
    [vm_compute; discriminate | reflexivity].
Defined.

(** Two days ahead, and a second later. *)
Lemma remaining_never_grows_witness :
  0 <= remainingSeconds (countdown_after utc event (jan8_2pm + 1000) mounted)
    <= remainingSeconds (countdown_after utc event jan8_2pm mounted).
Proof.
  apply (remaining_never_grows utc event jan8_2pm (jan8_2pm + 1000) mounted mounted).
  vm_compute; discriminate.
Defined.

(** One millisecond before the event. *)
Lemma last_second_shows_zeros_witness :
  countdown_after utc event (eventInstant - 1) mounted =
    {| days := 0; hrs := 0; mins := 0; secs := 0; isExpired := false |}
  <-> 0 < eventInstant - (eventInstant - 1) < 1000.
Proof.
  apply (last_second_shows_zeros utc event (eventInstant - 1) mounted "14:00" eventInstant);
    reflexivity.
Defined.

Lemma join_split_witness :
  split ":" (join ":" ["14"; "00"; "30"]) = ["14"; "00"; "30"].
Proof.
  apply (join_split ":" ["14"; "00"; "30"]); [discriminate|].
  repeat constructor.
Defined.

(** 14:00:30 counts down like 14:00. *)
Lemma fields_after_second_ignored_witness :
  countdown_after utc event jan8_2pm mounted
  = countdown_after utc (props (Str "2025-01-10") (Str "14:00:30")) jan8_2pm mounted.
Proof.
  apply (fields_after_second_ignored utc (props (Str "2025-01-10") (Str "14:00:30")) event
           jan8_2pm mounted "14:00:30" "14" "00" ["30"]); reflexivity.
Defined.


Lemma shown_image_exists_witness :
  inRange 3 (currentImageIndex (card onSecondImage)) /\
  (exists x, at_index (allImages (gallery 3)) (currentImageIndex (card onSecondImage)) = Some x /\
             In x (allImages (gallery 3))) /\
  (exists k, shownPosition (card onSecondImage) = Int k /\ 1 <= k <= 3).
Proof.
  apply (shown_image_exists utc (gallery 3) onSecondImage);
    [reflexivity | apply reachable_onSecondImage].
Defined.

Lemma few_images_index_fixed_witness :
  currentImageIndex (card fullscreen) = Int 0.
Proof.
  apply (few_images_index_fixed utc (gallery 1) fullscreen);
    [vm_compute; discriminate | apply reachable_fullscreen].
Defined.

Lemma no_images_never_fullscreen_witness :
  isImageFullscreen (card configured) = false.
Proof.
  apply (no_images_never_fullscreen utc (gallery 0) configured);
    [reflexivity | apply reachable_configured].
Defined.

Lemma reachable_countdown_well_formed_witness :
  well_formed (countdown (card ticked)).
Proof.
  apply (reachable_countdown_well_formed utc event ticked), reachable_ticked.
Defined.

(** From 0 of three images: forward, back, forward, forward ends at 2. *)
Lemma navigation_is_addition_witness :
  currentImageIndex
    (navigateAll (gallery 3) [Advance; Retreat; Advance; Advance] initialState)
  = Int ((0 + displacement [Advance; Retreat; Advance; Advance]) mod 3).
Proof.
  apply (navigation_is_addition (gallery 3) [Advance; Retreat; Advance; Advance]
           initialState 0); [simpl; lia | reflexivity].
Defined.

Lemma full_round_witness :
  navigateAll (gallery 3) [Advance; Advance; Advance] initialState = initialState /\
  navigateAll (gallery 3) [Retreat; Retreat; Retreat] initialState = initialState.
Proof.
  apply (full_round (gallery 3) initialState).
  exists 0; split; [reflexivity | simpl; lia].
Defined.

(** 2 days 11 hours and 5 seconds. *)
Lemma countdown_is_readable_witness :
  exists d h m s,
    countdownView {| days := 2; hrs := 11; mins := 0; secs := 5; isExpired := false |}
      = Badges (d ++ "d") (h ++ "h") (m ++ "m") (s ++ "s") /\
    d = String_of 2 /\
    twoDigits h = true /\ Scenario.decimal h = Some 11 /\
    twoDigits m = true /\ Scenario.decimal m = Some 0 /\
    twoDigits s = true /\ Scenario.decimal s = Some 5.
Proof.
  apply (countdown_is_readable
           {| days := 2; hrs := 11; mins := 0; secs := 5; isExpired := false |});
    [|reflexivity|reflexivity].
  unfold well_formed; simpl; repeat split; try lia; discriminate.
Defined.

Lemma lives_mountedPage : lives utc emptyPage mountedPage.
Proof.
  apply (lives_on utc emptyPage emptyPage); [apply lives_start|].
  apply (life_mount utc event jan8_2pm mounted (timers emptyPage)).
Qed.

Lemma lives_rerenderedPage : lives utc emptyPage rerenderedPage.
Proof.
  apply (lives_on utc emptyPage mountedPage); [apply lives_mountedPage|].
  apply (life_keep utc event event _ eventWithImages); reflexivity.
Qed.

Lemma lives_leftPage : lives utc emptyPage leftPage.
Proof.
  apply (lives_on utc emptyPage mountedPage); [apply lives_mountedPage|].
  apply (life_unmount utc event event).
Qed.

(** Mounted and unmounted again: the foreign interval 7 is all that runs. *)
Lemma one_interval_none_left_witness :
  running (timers leftPage) = (held (instance leftPage) ++ [7%nat])%list.
Proof.
  apply (one_interval_none_left utc emptyPage leftPage);
    [reflexivity | repeat constructor | apply lives_leftPage].
Defined.

(** Re-rendered with images: the callback still has the date of the card. *)
Lemma callback_never_stale_witness :
  eventDate event = eventDate eventWithImages.
Proof.
  apply (callback_never_stale utc emptyPage rerenderedPage eventWithImages event 8);
    [reflexivity | repeat constructor | apply lives_rerenderedPage | reflexivity].
Defined.

(** The badges of a countdown, and the notice. *)
Example badges_of_two_days :
  countdownView {| days := 2; hrs := 11; mins := 0; secs := 5; isExpired := false |}
    = Badges "2d" "11h" "00m" "05s" /\
  countdownView expired = ExpiredNotice.
Proof. split; reflexivity. Qed.

(** Blank lines, also those of spaces and tabs, are not drawn; the lines
    drawn keep their line numbers and their spaces. *)
Example paragraphs_of_a_description :
  drawn (paragraphs (String "a" (String lineFeed (String lineFeed
          (String " " (String (ascii_of_nat 9) (String lineFeed " b ")))))))
    = [(0%nat, "a"); (3%nat, " b ")] /\
  drawn (paragraphs "") = [].
Proof. split; reflexivity. Qed.

End MoreScenarios.
